(** * patchpd: the generation / validation / repair pipeline

    A shallow embedding of [src/lib/openai.ts] ([generatePdPatch]) and of the
    two handlers of [src/App.tsx] that call it ([handleGenerate] and
    [handleRegenerate]), followed by the properties of the specification
    that are checked against them.

    Conventions.
    - A JavaScript string is the list of its UTF-16 code units.
    - [Promise]-returning code is modelled sequentially: one handler runs to
      completion before the next one starts.
    - The completion service and the clock are inputs (an oracle and explicit
      time stamps); [localStorage] is a field of the state. *)

From Stdlib Require Import List String Ascii NArith ZArith Bool Lia Arith.
From Stdlib Require Import DecimalString.
From Stdlib Require QArith_base.
Import ListNotations.

Set Implicit Arguments.

(* ====================================================================== *)
(** ** JavaScript strings and the string primitives the code uses *)
(* ====================================================================== *)

Module Js.

(** A UTF-16 code unit. No arithmetic is done on code units, they are only
    compared. *)
Definition char16 := N.
Definition jsstring := list char16.

(** A source literal (all literals of the program are ASCII). *)
Definition lit (s : string) : jsstring :=
  List.map N_of_ascii (list_ascii_of_string s).

Fixpoint eqb (a b : jsstring) : bool :=
  match a, b with
  | [], [] => true
  | x :: a', y :: b' => N.eqb x y && eqb a' b'
  | _, _ => false
  end.

(** [s.startsWith(pat)] *)
Fixpoint startsWith (s pat : jsstring) {struct pat} : bool :=
  match pat, s with
  | [], _ => true
  | p :: pat', c :: s' => N.eqb c p && startsWith s' pat'
  | _ :: _, [] => false
  end.

(** [s.includes(pat)] *)
Fixpoint includes (s pat : jsstring) : bool :=
  startsWith s pat ||
  match s with
  | [] => false
  | _ :: s' => includes s' pat
  end.

(** WhiteSpace and LineTerminator code units, as [String.prototype.trim]
    strips them. *)
Definition isWhiteSpace (c : char16) : bool :=
  ((9 <=? c) && (c <=? 13) || (c =? 32) || (c =? 160) || (c =? 5760)
   || (8192 <=? c) && (c <=? 8202) || (c =? 8232) || (c =? 8233)
   || (c =? 8239) || (c =? 8287) || (c =? 12288) || (c =? 65279))%N.

Fixpoint trimStart (s : jsstring) : jsstring :=
  match s with
  | c :: s' => if isWhiteSpace c then trimStart s' else s
  | [] => []
  end.

(** [s.trim()] *)
Definition trim (s : jsstring) : jsstring :=
  rev (trimStart (rev (trimStart s))).

(** [l.join(sep)] *)
Fixpoint join (sep : jsstring) (l : list jsstring) : jsstring :=
  match l with
  | [] => []
  | [x] => x
  | x :: l' => x ++ sep ++ join sep l'
  end.

(** [s.replace(pat, rep)] with a string pattern: the first occurrence
    only. *)
Fixpoint replaceFirst (pat rep s : jsstring) : jsstring :=
  if startsWith s pat then rep ++ skipn (List.length pat) s
  else match s with
       | [] => []
       | c :: s' => c :: replaceFirst pat rep s'
       end.

(** Template-literal interpolation of an integral number. *)
Definition ofZ (z : Z) : jsstring := lit (NilZero.string_of_int (Z.to_int z)).

(** *** Regular expressions

    The program uses four regular expressions, none of which matches the
    empty string. Each is compiled by hand to a sticky matcher: applied
    to the text that starts at the current position, it returns the length
    of the match there, if any. *)
Definition matcher := jsstring -> option nat.

(** An alternation of literals, tried in order. *)
Fixpoint firstLiteral (alts : list jsstring) : matcher :=
  fun s =>
    match alts with
    | [] => None
    | a :: alts' =>
        if startsWith s a then Some (List.length a) else firstLiteral alts' s
    end.

(** [/---PATCH---|---EXPLANATION---/] *)
Definition reMarkers : matcher :=
  firstLiteral [lit "---PATCH---"; lit "---EXPLANATION---"].

Definition LF : char16 := 10%N.
Definition fence : jsstring := lit "```".

(** [/```pd\n?|\n?```/]: the greedy optional line feed makes each branch
    an ordered choice between the literal with and without it. *)
Definition reFences : matcher :=
  firstLiteral [fence ++ lit "pd" ++ [LF]; fence ++ lit "pd";
                LF :: fence; fence].

(** [/#X connect/] *)
Definition reConnect : matcher := firstLiteral [lit "#X connect"].

(** [\d] *)
Definition isDigit (c : char16) : bool := ((48 <=? c) && (c <=? 57))%N.

Fixpoint takeDigits (s : jsstring) : nat :=
  match s with
  | c :: s' => if isDigit c then S (takeDigits s') else 0
  | [] => 0
  end.

(** [/#X connect \d+ \d+/]: a digit run cannot give a digit back to the
    space or to the end of the pattern, so greedy matching never
    backtracks with success. *)
Definition reConnectNums : matcher :=
  fun s =>
    let head := lit "#X connect " in
    if startsWith s head then
      let r1 := skipn (List.length head) s in
      match takeDigits r1 with
      | 0 => None
      | S _ as d1 =>
          match skipn d1 r1 with
          | c :: r2 =>
              if (c =? 32)%N then
                match takeDigits r2 with
                | 0 => None
                | S _ as d2 => Some (List.length head + d1 + 1 + d2)
                end
              else None
          | [] => None
          end
      end
    else None.

(** The scanning loops. [skip] counts the code units of the current match
    that are still to be passed over. *)

(** [s.split(re)] *)
Fixpoint splitGo (re : matcher) (skip : nat) (cur : jsstring) (s : jsstring)
  : list jsstring :=
  match s with
  | [] => [rev cur]
  | c :: s' =>
      match skip with
      | S k => splitGo re k cur s'
      | 0 =>
          match re s with
          | Some (S k) => rev cur :: splitGo re k [] s'
          | _ => splitGo re 0 (c :: cur) s'
          end
      end
  end.

Definition split (re : matcher) (s : jsstring) : list jsstring :=
  splitGo re 0 [] s.

(** [s.replace(re, '')] with the [g] flag *)
Fixpoint removeGo (re : matcher) (skip : nat) (s : jsstring) : jsstring :=
  match s with
  | [] => []
  | c :: s' =>
      match skip with
      | S k => removeGo re k s'
      | 0 =>
          match re s with
          | Some (S k) => removeGo re k s'
          | _ => c :: removeGo re 0 s'
          end
      end
  end.

Definition removeAll (re : matcher) (s : jsstring) : jsstring :=
  removeGo re 0 s.

(** [(s.match(re) || []).length] with the [g] flag *)
Fixpoint countGo (re : matcher) (skip : nat) (s : jsstring) : nat :=
  match s with
  | [] => 0
  | _ :: s' =>
      match skip with
      | S k => countGo re k s'
      | 0 =>
          match re s with
          | Some (S k) => S (countGo re k s')
          | _ => countGo re 0 s'
          end
      end
  end.

Definition countMatches (re : matcher) (s : jsstring) : nat :=
  countGo re 0 s.

End Js.

Import Js.

(* ====================================================================== *)
(** ** [src/lib/openai.ts] *)
(* ====================================================================== *)

Module OpenAI.

(** A thrown value: [new Error(message)], or a service error that also
    carries an HTTP [status]. *)
Record JsError := mkError { message : jsstring; status : option Z }.

Definition Error (msg : string) : JsError :=
  {| message := lit msg; status := None |}.

Inductive Role := system | user.

Record Message := { role : Role; content : jsstring }.

Record ChatRequest := {
  messages : list Message;
  model : jsstring;
  temperature : QArith_base.Q;
  max_tokens : Z
}.

(** How [Promise.race] of the service call and the 30 s timer settles. A
    fulfilled completion is taken to be well formed; its message content may
    be [null]. *)
Inductive Settled :=
| Fulfilled (text : option jsstring)
| Rejected (e : JsError)
| TimerFirst.

(** The environment of a call: the [openai_api_key] entry of [localStorage]
    and the completion service. The service is given the number of requests
    sent before this one, so that it may answer equal requests differently. *)
Record World := {
  openai_api_key : option jsstring;
  create : nat -> jsstring -> ChatRequest -> Settled
}.

Definition systemPrompt : jsstring := lit
"You are an expert in Pure Data (Pd) programming. Generate functional audio patches with clear instructions. Your response MUST follow this EXACT format and include ALL components:

---PATCH---
#N canvas 0 0 520 400;
#X obj 10 10 cnv 15 500 60 empty empty FM Synthesizer 20 12 0 14 -233017 -66577 0;
#X text 20 30 Instructions: 1) Click START 2) Adjust frequency 3) Control volume;
#X obj 50 100 loadbang;
#X msg 50 120 1;
#X obj 50 140 tgl 15 0 empty empty START 17 7 0 10 -262144 -1 -1 0 1;
#X obj 50 160 metro 100;
#X obj 50 200 osc~ 440;
#X obj 50 250 *~ 0.5;
#X obj 50 300 clip~ -1 1;
#X obj 50 350 dac~;
#X obj 150 300 vu 15 120 empty empty -1 -8 0 10 -66577 -1 1;
#X connect 2 0 3 0;
#X connect 3 0 4 0;
#X connect 4 0 5 0;
#X connect 5 0 6 0;
#X connect 6 0 7 0;
#X connect 7 0 8 0;
#X connect 8 0 9 0;
#X connect 8 0 10 0;

CRITICAL REQUIREMENTS:
1. EVERY audio object (ending in ~) MUST be connected in sequence
2. ALL connections MUST be explicitly listed with #X connect
3. Audio chain MUST flow: source~ -> processing~ -> volume~ -> clip~ -> dac~
4. Control flow MUST be: loadbang -> msg 1 -> tgl -> metro -> audio
5. Volume control MUST be 0.5 or less for safety
6. Instructions MUST be visible in the patch

---EXPLANATION---
Step-by-step explanation of the patch...".

(** JavaScript truthiness of an optional string. *)
Definition truthy (s : option jsstring) : bool :=
  match s with
  | Some (_ :: _) => true
  | _ => false
  end.

(** [s || ''] *)
Definition orEmpty (s : option jsstring) : jsstring :=
  match s with
  | Some x => x
  | None => []
  end.

(** The argument of [openai.chat.completions.create]. *)
Definition composeRequest (prompt : jsstring) (errorFeedback : option jsstring)
  : ChatRequest :=
  {| messages :=
       {| role := system; content := systemPrompt |}
       :: {| role := user; content := prompt |}
       :: (if truthy errorFeedback
           then [{| role := user;
                    content := lit "Errors to fix: " ++ orEmpty errorFeedback |}]
           else []);
     model := lit "gpt-4";
     temperature := QArith_base.Qmake 7 10;
     max_tokens := 2000 |}.

Definition timeoutError : JsError := Error "OpenAI request timeout".

(** The [catch] clause around the request and the processing of its
    answer. *)
Definition onCatch (error : JsError) : JsError :=
  if eqb (message error) (lit "API_KEY_MISSING") then
    Error "Please set your OpenAI API key in the settings to generate patches"
  else if eqb (message error) (lit "API_KEY_INVALID") then
    Error "Invalid API key format. Please check your OpenAI API key"
  else match status error with
       | Some 401%Z =>
           Error "Invalid API key. Please check your OpenAI API key in settings"
       | Some 429%Z =>
           Error "API rate limit exceeded. Please try again later"
       | _ => error
       end.

(** The two segments the answer is cut into. *)
Definition patchOf (text : jsstring) : jsstring :=
  match nth_error (split reMarkers text) 1 with
  | Some part => removeAll reFences part
  | None => []
  end.

Definition explanationOf (text : jsstring) : jsstring :=
  orEmpty (nth_error (split reMarkers text) 2).

(** The [validation] object, as the list of its entries in insertion
    order ([Object.entries]). *)
Definition Report := list (jsstring * bool).

Definition validation (patch : jsstring) : Report :=
  [ (lit "hasStartToggle",
      includes patch (lit "tgl 15 0") && includes patch (lit "START"));
    (lit "hasDac", includes patch (lit "dac~"));
    (lit "hasVolumeControl",
      includes patch (lit "*~ 0.5") || includes patch (lit "*~ 0.25"));
    (lit "hasVuMeter", includes patch (lit "vu 15 120"));
    (lit "hasInstructions",
      includes patch (lit "cnv 15") && includes patch (lit "text"));
    (lit "hasLoadBang", includes patch (lit "loadbang"));
    (lit "hasMetro", includes patch (lit "metro"));
    (lit "hasConnections", includes patch (lit "#X connect"));
    (lit "hasAudioChain",
      (includes patch (lit "osc~") || includes patch (lit "phasor~")
       || includes patch (lit "noise~"))
      && includes patch (lit "*~") && includes patch (lit "clip~")
      && includes patch (lit "dac~"));
    (lit "hasProperConnections", 6 <=? countMatches reConnectNums patch);
    (lit "hasSafeVolume",
      includes patch (lit "*~ 0.5") || includes patch (lit "*~ 0.25")
      || includes patch (lit "*~ 0.1")) ].

(** [Object.values(validation).some(v => !v)] *)
Definition someFalse (r : Report) : bool :=
  existsb (fun v => negb v) (List.map snd r).

(** The [missingComponents] text of a report. *)
Definition missingNames (r : Report) : list jsstring :=
  List.map (fun e => replaceFirst (lit "has") [] (fst e))
           (filter (fun e => negb (snd e)) r).

Definition missingComponents (r : Report) : jsstring :=
  join (lit ", ") (missingNames r).

Definition repairFeedback (r : Report) : jsstring :=
  lit "Please include missing components: " ++ missingComponents r.

Record GenerateResponse := { patch : jsstring; explanation : jsstring }.

Inductive Outcome :=
| Resolved (r : GenerateResponse)
| Threw (e : JsError).

(** What a run leaves behind, oldest first: every invocation of the
    function with its arguments, every request sent, and every report
    computed. *)
Inductive Event :=
| Invoked (retryCount : nat) (errorFeedback : option jsstring)
| Requested (req : ChatRequest)
| Validated (body : jsstring) (report : Report).

(** [generatePdPatch(prompt, errorFeedback, retryCount)]. [sent] is the
    number of requests sent so far. The function calls itself; [fuel] bounds
    the depth of the calls and [None] means that it was not enough. The
    value of a nested call is returned as it is: a [return] of a promise
    inside [try] is not awaited there, so the [catch] clause does not see its
    rejection. ([console.warn] is left out.) *)
Fixpoint generatePdPatch_fuel (fuel : nat) (w : World) (sent : nat)
  (prompt : jsstring) (errorFeedback : option jsstring) (retryCount : nat)
  : option (Outcome * list Event) :=
  match fuel with
  | 0 => None
  | S fuel' =>
      let here := Invoked retryCount errorFeedback in
      if negb (truthy (openai_api_key w)) then
        Some (Threw (Error "API_KEY_MISSING"), [here])
      else
        let apiKey := orEmpty (openai_api_key w) in
        if negb (startsWith apiKey (lit "sk-")) then
          Some (Threw (Error "API_KEY_INVALID"), [here])
        else
          let req := composeRequest prompt errorFeedback in
          match create w sent apiKey req with
          | Rejected e => Some (Threw (onCatch e), [here; Requested req])
          | TimerFirst =>
              Some (Threw (onCatch timeoutError), [here; Requested req])
          | Fulfilled text =>
              let content := orEmpty text in
              let patch := patchOf content in
              let explanation := explanationOf content in
              let report := validation patch in
              let seen := [here; Requested req; Validated patch report] in
              if (retryCount <? 2) && someFalse report then
                match
                  generatePdPatch_fuel fuel' w (S sent) prompt
                    (Some (repairFeedback report)) (S retryCount)
                with
                | Some (out, evs) => Some (out, seen ++ evs)
                | None => None
                end
              else
                Some (Resolved {| patch := trim patch;
                                  explanation := trim explanation |}, seen)
          end
  end.

(** The requests of a log. *)
Definition requests (evs : list Event) : list ChatRequest :=
  flat_map (fun e => match e with Requested r => [r] | _ => [] end) evs.

(** The retry counters of the invocations of a log. *)
Definition retryCounts (evs : list Event) : list nat :=
  flat_map (fun e => match e with Invoked n _ => [n] | _ => [] end) evs.

(** The feedback arguments of the invocations of a log. *)
Definition feedbacks (evs : list Event) : list (option jsstring) :=
  flat_map (fun e => match e with Invoked _ f => [f] | _ => [] end) evs.

End OpenAI.

(* ====================================================================== *)
(** ** [src/types.ts] and [src/App.tsx] *)
(* ====================================================================== *)

Module App.

Import OpenAI.

(** Time stamps ([Date]) are milliseconds since the epoch. *)
Record RegeneratedPatch := {
  regeneratedContent : jsstring;
  regeneratedExplanation : jsstring;
  regeneratedTimestamp : Z
}.

Record ErrorEntry := {
  error : jsstring;
  timestamp : Z;
  regeneratedPatch : option RegeneratedPatch
}.

Record AudioChain := {
  hasStartToggle : bool;
  hasDac : bool;
  hasVolumeControl : bool;
  hasVuMeter : bool;
  hasInstructions : bool
}.

Record Metadata := {
  width : Z;
  height : Z;
  audioEnabled : bool;
  controlRate : bool;
  requiredObjects : list jsstring;
  audioChain : AudioChain
}.

Record PdPatch := {
  name : jsstring;
  content : jsstring;
  explanation : jsstring;
  description : jsstring;
  created : Z;
  version : jsstring;
  metadata : Metadata;
  errorHistory : option (list ErrorEntry)
}.

Inductive Toast :=
| toast_error (msg : jsstring)
| toast_success (msg : jsstring).

(** The part of the component state that the two handlers read or write,
    the [pdPatchHistory] entry of [localStorage] (its JSON text is kept as
    the list it encodes), the toasts shown so far (oldest first) and the
    number of requests sent to the service so far. *)
Record State := {
  prompt : jsstring;
  isGenerating : bool;
  currentPatch : option PdPatch;
  history : list PdPatch;
  pdErrors : jsstring;
  isRegenerating : bool;
  showApiSettings : bool;
  toasts : list Toast;
  pdPatchHistory : option (list PdPatch);
  sent : nat
}.

Definition setIsGenerating (b : bool) (st : State) : State :=
  {| prompt := prompt st; isGenerating := b;
     currentPatch := currentPatch st; history := history st;
     pdErrors := pdErrors st; isRegenerating := isRegenerating st;
     showApiSettings := showApiSettings st; toasts := toasts st;
     pdPatchHistory := pdPatchHistory st; sent := sent st |}.

Definition setIsRegenerating (b : bool) (st : State) : State :=
  {| prompt := prompt st; isGenerating := isGenerating st;
     currentPatch := currentPatch st; history := history st;
     pdErrors := pdErrors st; isRegenerating := b;
     showApiSettings := showApiSettings st; toasts := toasts st;
     pdPatchHistory := pdPatchHistory st; sent := sent st |}.

Definition setPdErrors (e : jsstring) (st : State) : State :=
  {| prompt := prompt st; isGenerating := isGenerating st;
     currentPatch := currentPatch st; history := history st;
     pdErrors := e; isRegenerating := isRegenerating st;
     showApiSettings := showApiSettings st; toasts := toasts st;
     pdPatchHistory := pdPatchHistory st; sent := sent st |}.

Definition setCurrentPatch (p : option PdPatch) (st : State) : State :=
  {| prompt := prompt st; isGenerating := isGenerating st;
     currentPatch := p; history := history st;
     pdErrors := pdErrors st; isRegenerating := isRegenerating st;
     showApiSettings := showApiSettings st; toasts := toasts st;
     pdPatchHistory := pdPatchHistory st; sent := sent st |}.

Definition setShowApiSettings (b : bool) (st : State) : State :=
  {| prompt := prompt st; isGenerating := isGenerating st;
     currentPatch := currentPatch st; history := history st;
     pdErrors := pdErrors st; isRegenerating := isRegenerating st;
     showApiSettings := b; toasts := toasts st;
     pdPatchHistory := pdPatchHistory st; sent := sent st |}.

Definition toast (t : Toast) (st : State) : State :=
  {| prompt := prompt st; isGenerating := isGenerating st;
     currentPatch := currentPatch st; history := history st;
     pdErrors := pdErrors st; isRegenerating := isRegenerating st;
     showApiSettings := showApiSettings st; toasts := toasts st ++ [t];
     pdPatchHistory := pdPatchHistory st; sent := sent st |}.

Definition addSent (n : nat) (st : State) : State :=
  {| prompt := prompt st; isGenerating := isGenerating st;
     currentPatch := currentPatch st; history := history st;
     pdErrors := pdErrors st; isRegenerating := isRegenerating st;
     showApiSettings := showApiSettings st; toasts := toasts st;
     pdPatchHistory := pdPatchHistory st; sent := sent st + n |}.

(** [setHistory(prev => { const updated = f(prev);
    localStorage.setItem('pdPatchHistory', JSON.stringify(updated));
    return updated; })] *)
Definition setHistoryAndStore (f : list PdPatch -> list PdPatch) (st : State)
  : State :=
  let updated := f (history st) in
  {| prompt := prompt st; isGenerating := isGenerating st;
     currentPatch := currentPatch st; history := updated;
     pdErrors := pdErrors st; isRegenerating := isRegenerating st;
     showApiSettings := showApiSettings st; toasts := toasts st;
     pdPatchHistory := Some updated; sent := sent st |}.

(** The [newPatch] literal of [handleGenerate]. *)
Definition newPatchOf (prompt : jsstring) (result : GenerateResponse)
  (now created : Z) : PdPatch :=
  {| name := lit "patch_" ++ ofZ now;
     content := patch result;
     explanation := OpenAI.explanation result;
     description := prompt;
     created := created;
     version := lit "1.0";
     metadata :=
       {| width := 520; height := 400;
          audioEnabled := true; controlRate := true;
          requiredObjects :=
            [lit "loadbang"; lit "tgl"; lit "metro"; lit "osc~"; lit "dac~";
             lit "*~"; lit "clip~"; lit "vu"; lit "cnv"];
          audioChain :=
            {| hasStartToggle := true; hasDac := true;
               hasVolumeControl := true; hasVuMeter := true;
               hasInstructions := true |} |};
     errorHistory := Some [] |}.

(** The [audioValidation] object of [handleGenerate], as its entries. *)
Definition audioValidation (p : jsstring) : list (jsstring * bool) :=
  [ (lit "hasAudioSource",
      includes p (lit "osc~") || includes p (lit "phasor~")
      || includes p (lit "noise~"));
    (lit "hasVolume", includes p (lit "*~ 0.5") || includes p (lit "*~ 0.25"));
    (lit "hasOutput", includes p (lit "dac~"));
    (lit "hasConnections", 6 <=? countMatches reConnect p) ].

(** [Object.values(audioValidation).every(v => v)] *)
Definition everyTrue (r : list (jsstring * bool)) : bool :=
  forallb (fun v => v) (List.map snd r).

(** How the [try] block of a handler ends. *)
Inductive TryEnd :=
| Completed (st : State)
| Caught (e : JsError) (st : State).

(** [handleGenerate()]; [now] is the value of [Date.now()] and [created]
    that of [new Date()]. *)
Definition handleGenerate (fuel : nat) (w : World) (now created : Z)
  (st : State) : option State :=
  if negb (truthy (Some (trim (prompt st)))) then
    Some (toast (toast_error (lit "Please enter a prompt")) st)
  else
    let st1 := setPdErrors [] (setIsGenerating true st) in
    match generatePdPatch_fuel fuel w (sent st1) (prompt st1) None 0 with
    | None => None
    | Some (out, evs) =>
        let st2 := addSent (List.length (requests evs)) st1 in
        let tried :=
          match out with
          | Threw e => Caught e st2
          | Resolved result =>
              let newPatch := newPatchOf (prompt st2) result now created in
              if negb (everyTrue (audioValidation (patch result))) then
                Caught
                  (Error "Generated patch is missing critical audio components")
                  st2
              else
                Completed
                  (toast (toast_success (lit "Patch generated successfully!"))
                     (setHistoryAndStore (fun prev => newPatch :: prev)
                        (setCurrentPatch (Some newPatch) st2)))
          end in
        let handled :=
          match tried with
          | Completed st3 => st3
          | Caught e st3 =>
              if includes (message e) (lit "API key") then
                setShowApiSettings true (toast (toast_error (message e)) st3)
              else
                toast (toast_error (lit "Error: " ++ message e)) st3
          end in
        Some (setIsGenerating false handled)
    end.

(** The [updatedPatch] literal of [handleRegenerate]. *)
Definition updatedPatchOf (currentPatch : PdPatch) (errorMessage : jsstring)
  (result : GenerateResponse) (t1 t2 : Z) : PdPatch :=
  {| name := name currentPatch;
     content := content currentPatch;
     explanation := explanation currentPatch;
     description := description currentPatch;
     created := created currentPatch;
     version := version currentPatch;
     metadata := metadata currentPatch;
     errorHistory :=
       Some ({| error := errorMessage;
                timestamp := t1;
                regeneratedPatch :=
                  Some {| regeneratedContent := patch result;
                          regeneratedExplanation := OpenAI.explanation result;
                          regeneratedTimestamp := t2 |} |}
             :: match errorHistory currentPatch with
                | Some entries => entries
                | None => []
                end) |}.

(** [handleRegenerate(errorMessage)]; [t1] and [t2] are the values of the
    two [new Date()]. ([console.error] is left out.) *)
Definition handleRegenerate (fuel : nat) (w : World) (t1 t2 : Z)
  (errorMessage : jsstring) (st : State) : option State :=
  match currentPatch st with
  | None => Some st
  | Some current =>
      let st1 := setPdErrors [] (setIsRegenerating true st) in
      match
        generatePdPatch_fuel fuel w (sent st1) (description current)
          (Some errorMessage) 0
      with
      | None => None
      | Some (out, evs) =>
          let st2 := addSent (List.length (requests evs)) st1 in
          let handled :=
            match out with
            | Resolved result =>
                let updatedPatch :=
                  updatedPatchOf current errorMessage result t1 t2 in
                setHistoryAndStore
                  (List.map (fun p =>
                     if eqb (name p) (name current) then updatedPatch else p))
                  (setCurrentPatch (Some updatedPatch) st2)
            | Threw e =>
                toast (toast_error (lit "Failed to regenerate patch")) st2
            end in
          Some (setIsRegenerating false handled)
      end
  end.

End App.

Import OpenAI.

(* ====================================================================== *)
(** ** Vocabulary of the statements and the scenarios of the specification *)
(* ====================================================================== *)

(** [validation.key]; a missing property reads as a falsy value. *)
Definition get (r : Report) (key : string) : bool :=
  match find (fun e => eqb (fst e) (lit key)) r with
  | Some e => snd e
  | None => false
  end.

(** The keys of the [validation] object literal, in source order. *)
Definition predicateKeys : list jsstring :=
  List.map lit
    [ "hasStartToggle"; "hasDac"; "hasVolumeControl"; "hasVuMeter";
      "hasInstructions"; "hasLoadBang"; "hasMetro"; "hasConnections";
      "hasAudioChain"; "hasProperConnections"; "hasSafeVolume" ]%string.

(** The keys of the ten predicates that section 4.4 of the specification
    enumerates. *)
Definition specKeys : list jsstring :=
  List.map lit
    [ "hasStartToggle"; "hasDac"; "hasVolumeControl"; "hasVuMeter";
      "hasInstructions"; "hasLoadBang"; "hasMetro"; "hasConnections";
      "hasAudioChain"; "hasProperConnections" ]%string.

(** The name under which a predicate is reported as missing. *)
Definition humanName (key : jsstring) : jsstring :=
  replaceFirst (lit "has") [] key.

(** The stored key passes the two checks made before a request is sent. *)
Definition credentialOk (w : World) : bool :=
  truthy (openai_api_key w)
  && startsWith (orEmpty (openai_api_key w)) (lit "sk-").

(** The error a settled request is turned into by [Promise.race], if it
    failed. *)
Definition failureOf (s : Settled) : option JsError :=
  match s with
  | Fulfilled _ => None
  | Rejected e => Some e
  | TimerFirst => Some timeoutError
  end.

(** The errors thrown by the two checks of the stored key, under the names
    the specification gives to their kinds. *)
Definition MissingCredential : JsError := Error "API_KEY_MISSING".
Definition InvalidCredentialFormat : JsError := Error "API_KEY_INVALID".


(** The log and the outcome of a run that came to an end. *)
Definition logOf (run : option (Outcome * list Event)) : list Event :=
  match run with
  | Some (_, evs) => evs
  | None => []
  end.

Definition outcomeOf (run : option (Outcome * list Event)) : option Outcome :=
  option_map fst run.

Section Invocation.

Variable w : World.
Variable prompt : jsstring.

(** The three events of an invocation whose request was answered. *)
Definition seenOf (retryCount : nat) (errorFeedback : option jsstring)
  (text : option jsstring) : list Event :=
  [ Invoked retryCount errorFeedback;
    Requested (composeRequest prompt errorFeedback);
    Validated (patchOf (orEmpty text)) (validation (patchOf (orEmpty text))) ].

Definition responseOf (text : option jsstring) : GenerateResponse :=
  {| patch := trim (patchOf (orEmpty text));
     explanation := trim (explanationOf (orEmpty text)) |}.

(** The ways an invocation can end. *)
Inductive Ending (sent : nat) (fb : option jsstring) (rc : nat)
  (fuel : nat) (out : Outcome) (evs : list Event) : Prop :=
| NoKey :
    truthy (openai_api_key w) = false ->
    out = Threw (Error "API_KEY_MISSING") -> evs = [Invoked rc fb] ->
    Ending sent fb rc fuel out evs
| BadKey :
    truthy (openai_api_key w) = true ->
    startsWith (orEmpty (openai_api_key w)) (lit "sk-") = false ->
    out = Threw (Error "API_KEY_INVALID") -> evs = [Invoked rc fb] ->
    Ending sent fb rc fuel out evs
| Failed e :
    credentialOk w = true ->
    failureOf (create w sent (orEmpty (openai_api_key w))
                 (composeRequest prompt fb)) = Some e ->
    out = Threw (onCatch e) ->
    evs = [Invoked rc fb; Requested (composeRequest prompt fb)] ->
    Ending sent fb rc fuel out evs
| Done text :
    credentialOk w = true ->
    create w sent (orEmpty (openai_api_key w)) (composeRequest prompt fb)
    = Fulfilled text ->
    (rc <? 2) && someFalse (validation (patchOf (orEmpty text))) = false ->
    out = Resolved (responseOf text) -> evs = seenOf rc fb text ->
    Ending sent fb rc fuel out evs
| Again text evs' :
    credentialOk w = true ->
    create w sent (orEmpty (openai_api_key w)) (composeRequest prompt fb)
    = Fulfilled text ->
    (rc <? 2) && someFalse (validation (patchOf (orEmpty text))) = true ->
    generatePdPatch_fuel fuel w (S sent) prompt
      (Some (repairFeedback (validation (patchOf (orEmpty text))))) (S rc)
    = Some (out, evs') ->
    evs = seenOf rc fb text ++ evs' ->
    Ending sent fb rc fuel out evs.

End Invocation.

Module Scenario.

(** Scenario A: a body with every component and seven connections. *)
Definition bodyA : jsstring := lit
"#N canvas 0 0 520 400;
#X obj 10 10 cnv 15 500 60 empty empty Sine 20 12 0 14 -233017 -66577 0;
#X text 20 30 Instructions: 1) Click START 2) Control volume;
#X obj 50 100 loadbang;
#X msg 50 120 1;
#X obj 50 140 tgl 15 0 empty empty START 17 7 0 10 -262144 -1 -1 0 1;
#X obj 50 160 metro 100;
#X obj 50 200 osc~ 440;
#X obj 50 250 *~ 0.25;
#X obj 50 300 clip~ -1 1;
#X obj 50 350 dac~;
#X obj 150 300 vu 15 120 empty empty -1 -8 0 10 -66577 -1 1;
#X connect 2 0 3 0;
#X connect 3 0 4 0;
#X connect 4 0 5 0;
#X connect 5 0 6 0;
#X connect 6 0 7 0;
#X connect 7 0 8 0;
#X connect 8 0 9 0;".

(** Scenario B: no level meter and four connections. *)
Definition bodyB : jsstring := lit
"#N canvas 0 0 520 400;
#X obj 10 10 cnv 15 500 60 empty empty Sine 20 12 0 14 -233017 -66577 0;
#X text 20 30 Instructions: 1) Click START 2) Control volume;
#X obj 50 100 loadbang;
#X msg 50 120 1;
#X obj 50 140 tgl 15 0 empty empty START 17 7 0 10 -262144 -1 -1 0 1;
#X obj 50 160 metro 100;
#X obj 50 200 osc~ 440;
#X obj 50 250 *~ 0.25;
#X obj 50 300 clip~ -1 1;
#X obj 50 350 dac~;
#X connect 2 0 3 0;
#X connect 3 0 4 0;
#X connect 6 0 7 0;
#X connect 7 0 8 0;".

(** No level meter, and the seven connections of scenario A. *)
Definition bodyC : jsstring := lit
"#N canvas 0 0 520 400;
#X obj 10 10 cnv 15 500 60 empty empty Sine 20 12 0 14 -233017 -66577 0;
#X text 20 30 Instructions: 1) Click START 2) Control volume;
#X obj 50 100 loadbang;
#X msg 50 120 1;
#X obj 50 140 tgl 15 0 empty empty START 17 7 0 10 -262144 -1 -1 0 1;
#X obj 50 160 metro 100;
#X obj 50 200 osc~ 440;
#X obj 50 250 *~ 0.25;
#X obj 50 300 clip~ -1 1;
#X obj 50 350 dac~;
#X connect 2 0 3 0;
#X connect 3 0 4 0;
#X connect 4 0 5 0;
#X connect 5 0 6 0;
#X connect 6 0 7 0;
#X connect 7 0 8 0;
#X connect 8 0 9 0;".

(** A completion in the format the system prompt asks for. *)
Definition completion (body : jsstring) : jsstring :=
  lit "---PATCH---" ++ [LF] ++ body ++ [LF] ++ lit "---EXPLANATION---"
  ++ [LF] ++ lit "A sine oscillator through a volume stage.".

Definition key : jsstring := lit "sk-test".

Definition answering (answer : nat -> Settled) : World :=
  {| openai_api_key := Some key; create := fun n _ _ => answer n |}.

Definition worldA : World :=
  answering (fun _ => Fulfilled (Some (completion bodyA))).

Definition worldB : World :=
  answering (fun _ => Fulfilled (Some (completion bodyB))).

Definition worldC : World :=
  answering (fun _ => Fulfilled (Some (completion bodyC))).

(** The service rejects the stored key. *)
Definition unauthorized : JsError :=
  {| message := lit "Incorrect API key provided"; status := Some 401%Z |}.

Definition world401 : World := answering (fun _ => Rejected unauthorized).

(** The first answer fails validation, the second request times out. *)
Definition worldSlow : World :=
  answering (fun n => match n with
                      | 0 => Fulfilled (Some (completion bodyB))
                      | _ => TimerFirst
                      end).

Definition worldNoKey : World :=
  {| openai_api_key := None; create := create worldA |}.

Definition worldBadKey : World :=
  {| openai_api_key := Some (lit "pk-test"); create := create worldA |}.

(** The answer has the explanation marker only. *)
Definition oneMarker : jsstring := lit "foo---EXPLANATION---bar".

Definition tonePrompt : jsstring := lit "simple sine tone at 440Hz".

Definition fresh : App.State :=
  {| App.prompt := tonePrompt; App.isGenerating := false;
     App.currentPatch := None; App.history := [];
     App.pdErrors := []; App.isRegenerating := false;
     App.showApiSettings := false; App.toasts := [];
     App.pdPatchHistory := None; App.sent := 0 |}.

(** Scenario D: a patch with one earlier entry is selected, and the history
    holds it and another patch. *)
Definition earlier : App.ErrorEntry :=
  {| App.error := lit "no sound"; App.timestamp := 1000;
     App.regeneratedPatch := None |}.

Definition selected : App.PdPatch :=
  {| App.name := lit "patch_1"; App.content := bodyB;
     App.explanation := lit "first"; App.description := tonePrompt;
     App.created := 900; App.version := lit "1.0";
     App.metadata :=
       App.metadata
         (App.newPatchOf tonePrompt {| patch := []; explanation := [] |} 0 0);
     App.errorHistory := Some [earlier] |}.

Definition other : App.PdPatch :=
  App.newPatchOf (lit "noise") {| patch := bodyA; explanation := [] |} 2 2.

Definition browsing : App.State :=
  {| App.prompt := []; App.isGenerating := false;
     App.currentPatch := Some selected; App.history := [other; selected];
     App.pdErrors := lit "dac~ not connected"; App.isRegenerating := false;
     App.showApiSettings := false; App.toasts := [];
     App.pdPatchHistory := Some [other; selected]; App.sent := 3 |}.

End Scenario.

(* ====================================================================== *)
(** ** The rest of [src/App.tsx] *)
(* ====================================================================== *)

Module Handlers.

(** [truncateText(text, maxLength)]. The lengths the component passes are
    the literals 40 and 60; 50 is the default. *)
Definition truncateText (text : jsstring) (maxLength : nat) : jsstring :=
  if maxLength <? List.length text
  then firstn maxLength text ++ lit "..."
  else text.

(** [filteredHistory]. [String.prototype.toLowerCase] follows the Unicode
    case tables; it is an argument here. *)
Definition filteredHistory (toLowerCase : jsstring -> jsstring)
  (history : list App.PdPatch) (searchQuery : jsstring) : list App.PdPatch :=
  if negb (truthy (Some searchQuery)) then history
  else
    filter
      (fun patch =>
         includes (toLowerCase (App.description patch))
                  (toLowerCase searchQuery)
         || includes (toLowerCase (App.content patch))
                     (toLowerCase searchQuery))
      history.

(** What [handleDownload] hands to the browser: the parts and the type of
    the [Blob], and the [download] attribute of the link that is clicked. *)
Record Download := {
  blobParts : list jsstring;
  blobType : jsstring;
  download : jsstring
}.

(** [handleDownload()] *)
Definition handleDownload (st : App.State) : App.State * option Download :=
  match App.currentPatch st with
  | None => (st, None)
  | Some currentPatch =>
      (App.toast (App.toast_success (lit "Patch downloaded successfully!")) st,
       Some {| blobParts := [App.content currentPatch];
               blobType := lit "text/plain";
               download := App.name currentPatch ++ lit ".pd" |})
  end.

(** The two pieces of state of the settings form. *)
Record KeyForm := {
  apiKey : jsstring;
  apiKeyError : option jsstring
}.

Definition setApiKeyError (e : option jsstring) (form : KeyForm) : KeyForm :=
  {| apiKey := apiKey form; apiKeyError := e |}.

(** [localStorage.setItem('openai_api_key', value)] *)
Definition storeKey (value : jsstring) (w : World) : World :=
  {| openai_api_key := Some value; create := create w |}.

Definition quote : char16 := 34%N.

(** [handleApiKeySubmit(e)] *)
Definition handleApiKeySubmit (w : World) (form : KeyForm) (st : App.State)
  : World * KeyForm * App.State :=
  let form1 := setApiKeyError None form in
  if negb (truthy (Some (apiKey form1))) then
    (w, setApiKeyError (Some (lit "API key is required")) form1, st)
  else if negb (startsWith (apiKey form1) (lit "sk-")) then
    (w,
     setApiKeyError
       (Some (lit "Invalid API key format. Should start with "
              ++ [quote] ++ lit "sk-" ++ [quote]))
       form1,
     st)
  else
    (storeKey (apiKey form1) w, form1,
     App.toast (App.toast_success (lit "API key saved successfully"))
       (App.setShowApiSettings false st)).

(** [clearHistory()] *)
Definition clearHistory (st : App.State) : App.State :=
  {| App.prompt := App.prompt st; App.isGenerating := App.isGenerating st;
     App.currentPatch := App.currentPatch st; App.history := [];
     App.pdErrors := App.pdErrors st;
     App.isRegenerating := App.isRegenerating st;
     App.showApiSettings := App.showApiSettings st;
     App.toasts := App.toasts st;
     App.pdPatchHistory := None; App.sent := App.sent st |}.

(** [{...prev, content}] *)
Definition withContent (content : jsstring) (prev : App.PdPatch)
  : App.PdPatch :=
  {| App.name := App.name prev;
     App.content := content;
     App.explanation := App.explanation prev;
     App.description := App.description prev;
     App.created := App.created prev;
     App.version := App.version prev;
     App.metadata := App.metadata prev;
     App.errorHistory := App.errorHistory prev |}.

(** [handleViewCode(content)] *)
Definition handleViewCode (content : jsstring) (st : App.State) : App.State :=
  App.setCurrentPatch
    (match App.currentPatch st with
     | Some prev => Some (withContent content prev)
     | None => None
     end)
    st.

End Handlers.

(** The [pdPatchHistory] entry of [localStorage] is in step with the
    history on screen: it is the text that [JSON.stringify] gives for that
    history (the entry is kept as the list that was serialised), or there
    is no entry and the history is empty. *)
Definition savedInStep (st : App.State) : Prop :=
  match App.pdPatchHistory st with
  | Some saved => saved = App.history st
  | None => App.history st = []
  end.

(** A code unit that [trim] does not strip. *)
Definition solid (c : char16) : Prop := isWhiteSpace c = false.

Module Sample.

(** Lower case for texts of ASCII letters, digits and punctuation, on which
    it is what [toLowerCase] gives. *)
Definition asciiLower (s : jsstring) : jsstring :=
  List.map (fun c => if ((65 <=? c) && (c <=? 90))%N then (c + 32)%N else c) s.

Definition droneEntry : App.PdPatch :=
  App.newPatchOf (lit "Low Drone")
    {| patch := Scenario.bodyA; explanation := lit "a drone" |} 7 7.

Definition form (value : string) : Handlers.KeyForm :=
  {| Handlers.apiKey := lit value;
     Handlers.apiKeyError := Some (lit "stale") |}.

(** A completion in a fenced block between the two markers. *)
Definition fenced (body : jsstring) : jsstring :=
  lit "Here is the patch." ++ [LF] ++ lit "---PATCH---" ++ [LF]
  ++ fence ++ lit "pd" ++ [LF] ++ body ++ [LF] ++ fence ++ [LF]
  ++ lit "---EXPLANATION---" ++ [LF] ++ lit "It plays a tone.".

End Sample.

Unset Implicit Arguments.

(* ====================================================================== *)
(** ** Lemmas on the string primitives *)
(* ====================================================================== *)

Section StringLemmas.

Lemma startsWith_app (pat rest : jsstring) :
  startsWith (pat ++ rest) pat = true.
Proof.
  induction pat as [|p pat IH]; simpl; [reflexivity|].
  now rewrite N.eqb_refl, IH.
Qed.

Lemma startsWith_inv (s pat : jsstring) :
  startsWith s pat = true -> exists rest, s = pat ++ rest.
Proof.
  revert s; induction pat as [|p pat IH]; intros s H.
  - now exists s.
  - destruct s as [|c s]; simpl in H; [discriminate|].
    apply andb_prop in H as [Hc Hs].
    apply N.eqb_eq in Hc; subst c.
    destruct (IH _ Hs) as [rest ->].
    now exists rest.
Qed.

(** A text that starts with a pattern starts with each prefix of it. *)
Lemma startsWith_prefix (s a b : jsstring) :
  startsWith s (a ++ b) = true -> startsWith s a = true.
Proof.
  intros H; destruct (startsWith_inv _ _ H) as [rest ->].
  rewrite <- app_assoc; apply startsWith_app.
Qed.

Lemma includes_here (s pat : jsstring) :
  startsWith s pat = true -> includes s pat = true.
Proof.
  intros H; destruct s; simpl in *; now rewrite H.
Qed.

Lemma includes_later (c : char16) (s pat : jsstring) :
  includes s pat = true -> includes (c :: s) pat = true.
Proof.
  intros H; simpl; rewrite H; apply orb_true_r.
Qed.

Lemma includes_false_here (s pat : jsstring) :
  includes s pat = false -> startsWith s pat = false.
Proof.
  destruct s; simpl; intros H; now apply orb_false_elim in H.
Qed.

Lemma includes_false_later (c : char16) (s pat : jsstring) :
  includes (c :: s) pat = false -> includes s pat = false.
Proof.
  simpl; intros H; now apply orb_false_elim in H.
Qed.

Lemma eqb_eq (a b : jsstring) : eqb a b = true <-> a = b.
Proof.
  revert b; induction a as [|x a IH]; intros [|y b]; simpl;
    split; intros H; try discriminate; try reflexivity.
  - apply andb_prop in H as [Hx Ha].
    apply N.eqb_eq in Hx; apply IH in Ha; now subst.
  - injection H as -> ->.
    rewrite N.eqb_refl; simpl; now apply IH.
Qed.

(** The number of parts of a split is one more than the number of
    matches. *)
Lemma splitGo_length (re : matcher) (s : jsstring) :
  forall skip cur,
    List.length (splitGo re skip cur s) = S (countGo re skip s).
Proof.
  induction s as [|c s IH]; intros skip cur; simpl; [reflexivity|].
  destruct skip as [|k]; [|apply IH].
  destruct (re (c :: s)) as [[|k]|]; simpl; now rewrite IH.
Qed.

Lemma split_length (re : matcher) (s : jsstring) :
  List.length (split re s) = S (countMatches re s).
Proof. apply splitGo_length. Qed.

(** No match anywhere: the split has the text as its only part. *)
Lemma splitGo_no_match (re : matcher) (s : jsstring) :
  forall cur,
    countGo re 0 s = 0 -> splitGo re 0 cur s = [rev cur ++ s].
Proof.
  induction s as [|c s IH]; intros cur H; simpl in *.
  - now rewrite app_nil_r.
  - destruct (re (c :: s)) as [[|k]|]; try discriminate;
      rewrite (IH _ H); simpl; now rewrite <- app_assoc.
Qed.

Lemma firstLiteral_none (alts : list jsstring) (s : jsstring) :
  Forall (fun a => includes s a = false) alts -> firstLiteral alts s = None.
Proof.
  induction 1 as [|a alts Ha _ IH]; simpl; [reflexivity|].
  now rewrite includes_false_here by exact Ha.
Qed.

Lemma countGo_absent (alts : list jsstring) (s : jsstring) :
  Forall (fun a => includes s a = false) alts ->
  countGo (firstLiteral alts) 0 s = 0.
Proof.
  induction s as [|c s IH]; intros H; simpl; [reflexivity|].
  rewrite firstLiteral_none by exact H.
  apply IH.
  eapply Forall_impl; [|exact H].
  intros a; apply includes_false_later.
Qed.

(** A match of [/#X connect \d+ \d+/] starts with [#X connect]. *)
Lemma reConnectNums_starts (s : jsstring) (n : nat) :
  reConnectNums s = Some n -> startsWith s (lit "#X connect") = true.
Proof.
  unfold reConnectNums.
  destruct (startsWith s (lit "#X connect ")) eqn:E; [|discriminate].
  intros _.
  apply (startsWith_prefix s (lit "#X connect") (lit " ")).
  exact E.
Qed.

Lemma countGo_connect_includes (s : jsstring) :
  forall skip,
    0 < countGo reConnectNums skip s ->
    includes s (lit "#X connect") = true.
Proof.
  induction s as [|c s IH]; intros skip H; simpl in H; [lia|].
  destruct skip as [|k].
  - destruct (reConnectNums (c :: s)) as [[|k]|] eqn:E.
    + apply includes_later; eapply IH; exact H.
    + apply includes_here; eapply reConnectNums_starts; exact E.
    + apply includes_later; eapply IH; exact H.
  - apply includes_later; eapply IH; exact H.
Qed.

End StringLemmas.

(* ====================================================================== *)
(** ** Lemmas on [generatePdPatch] *)
(* ====================================================================== *)

Section GenerateLemmas.

Variable w : World.
Variable prompt : jsstring.

Lemma credentialOk_split :
  credentialOk w = true ->
  truthy (openai_api_key w) = true /\ startsWith (orEmpty (openai_api_key w)) (lit "sk-") = true.
Proof. unfold credentialOk; intros H; now apply andb_prop in H. Qed.

(** Without a key the function throws before it does anything else. *)
Lemma gen_no_key fuel sent fb rc :
  truthy (openai_api_key w) = false ->
  generatePdPatch_fuel (S fuel) w sent prompt fb rc
  = Some (Threw (Error "API_KEY_MISSING"), [Invoked rc fb]).
Proof. intros H; cbn [generatePdPatch_fuel]; now rewrite H. Qed.

Lemma gen_bad_key fuel sent fb rc :
  truthy (openai_api_key w) = true ->
  startsWith (orEmpty (openai_api_key w)) (lit "sk-") = false ->
  generatePdPatch_fuel (S fuel) w sent prompt fb rc
  = Some (Threw (Error "API_KEY_INVALID"), [Invoked rc fb]).
Proof.
  intros H1 H2; cbn [generatePdPatch_fuel]; rewrite H1; cbn [negb].
  now rewrite H2.
Qed.

(** A request that fails ends the invocation with the error the [catch]
    clause throws. *)
Lemma gen_failed fuel sent fb rc e :
  credentialOk w = true ->
  failureOf (create w sent (orEmpty (openai_api_key w))
               (composeRequest prompt fb)) = Some e ->
  generatePdPatch_fuel (S fuel) w sent prompt fb rc
  = Some (Threw (onCatch e),
          [Invoked rc fb; Requested (composeRequest prompt fb)]).
Proof.
  intros Hk Hf; destruct (credentialOk_split Hk) as [H1 H2].
  cbn [generatePdPatch_fuel]; rewrite H1; cbn [negb].
  rewrite H2; cbn [negb].
  destruct (create w sent _ _); cbn [failureOf] in Hf;
    try discriminate; now injection Hf as <-.
Qed.

(** An answered request whose report does not call for a repair ends the
    invocation with the trimmed segments of the answer. *)
Lemma gen_done fuel sent fb rc text :
  credentialOk w = true ->
  create w sent (orEmpty (openai_api_key w)) (composeRequest prompt fb)
  = Fulfilled text ->
  (rc <? 2) && someFalse (validation (patchOf (orEmpty text))) = false ->
  generatePdPatch_fuel (S fuel) w sent prompt fb rc
  = Some (Resolved (responseOf text), seenOf prompt rc fb text).
Proof.
  intros Hk Hc Hr; destruct (credentialOk_split Hk) as [H1 H2].
  cbn [generatePdPatch_fuel]; rewrite H1; cbn [negb].
  rewrite H2; cbn [negb].
  now rewrite Hc, Hr.
Qed.

(** An answered request whose report calls for a repair hands over to a
    nested invocation, whose value is returned as it is. *)
Lemma gen_again fuel sent fb rc text :
  credentialOk w = true ->
  create w sent (orEmpty (openai_api_key w)) (composeRequest prompt fb)
  = Fulfilled text ->
  (rc <? 2) && someFalse (validation (patchOf (orEmpty text))) = true ->
  generatePdPatch_fuel (S fuel) w sent prompt fb rc
  = match
      generatePdPatch_fuel fuel w (S sent) prompt
        (Some (repairFeedback (validation (patchOf (orEmpty text))))) (S rc)
    with
    | Some (out, evs) => Some (out, seenOf prompt rc fb text ++ evs)
    | None => None
    end.
Proof.
  intros Hk Hc Hr; destruct (credentialOk_split Hk) as [H1 H2].
  cbn [generatePdPatch_fuel]; rewrite H1; cbn [negb].
  rewrite H2; cbn [negb].
  now rewrite Hc, Hr.
Qed.

Lemma gen_inv fuel sent fb rc out evs :
  generatePdPatch_fuel (S fuel) w sent prompt fb rc = Some (out, evs) ->
  Ending w prompt sent fb rc fuel out evs.
Proof.
  intros H.
  destruct (truthy (openai_api_key w)) eqn:H1.
  2:{ rewrite gen_no_key in H by exact H1.
      injection H as <- <-; now apply NoKey. }
  destruct (startsWith (orEmpty (openai_api_key w)) (lit "sk-")) eqn:H2.
  2:{ rewrite gen_bad_key in H by assumption.
      injection H as <- <-; now apply BadKey. }
  assert (Hk : credentialOk w = true).
  { unfold credentialOk; now rewrite H1, H2. }
  destruct (create w sent (orEmpty (openai_api_key w))
              (composeRequest prompt fb)) as [text|e|] eqn:Hc.
  - destruct ((rc <? 2) && someFalse (validation (patchOf (orEmpty text))))
      eqn:Hr.
    + rewrite (gen_again fuel _ _ _ _ Hk Hc Hr) in H.
      destruct (generatePdPatch_fuel fuel w (S sent) prompt _ (S rc))
        as [[out' evs']|] eqn:Hn; [|discriminate].
      injection H as <- <-; eapply Again; eauto.
    + rewrite (gen_done fuel _ _ _ _ Hk Hc Hr) in H.
      injection H as <- <-; eapply Done; eauto.
  - rewrite (gen_failed fuel sent fb rc e) in H;
      [|exact Hk|now rewrite Hc].
    injection H as <- <-; eapply Failed; eauto; now rewrite Hc.
  - rewrite (gen_failed fuel sent fb rc timeoutError) in H;
      [|exact Hk|now rewrite Hc].
    injection H as <- <-; eapply Failed; eauto; now rewrite Hc.
Qed.

End GenerateLemmas.

(* ====================================================================== *)
(** ** The Structural Validator *)
(* ====================================================================== *)

Lemma predicateKeys_NoDup : NoDup predicateKeys.
Proof.
  repeat (constructor;
          [ vm_compute; intros H;
            repeat (destruct H as [H|H]; [discriminate H|]); exact H | ]).
  constructor.
Qed.

(** C1, as the code has it: for every patch-body text the report has
    exactly eleven keys, the ten of section 4.4 of the specification
    followed by [hasSafeVolume], each of them once and each with a value,
    whatever the values of the others are. *)
Theorem validation_has_eleven_keys (patch : jsstring) :
  List.map fst (validation patch) = specKeys ++ [lit "hasSafeVolume"]
  /\ List.map fst (validation patch) = predicateKeys
  /\ NoDup (List.map fst (validation patch))
  /\ List.length (validation patch) = 11.
Proof.
  repeat split; try reflexivity.
  change (List.map fst (validation patch)) with predicateKeys.
  apply predicateKeys_NoDup.
Qed.

(** C1 as the specification states it fails on the empty patch body: its
    report does not have ten keys, and [hasSafeVolume] is a key of it that
    is not one of the ten. *)
Lemma validation_ten_keys_counterexample :
  List.length (validation (lit "")) <> 10
  /\ List.map fst (validation (lit "")) <> specKeys
  /\ In (lit "hasSafeVolume") (List.map fst (validation (lit "")))
  /\ ~ In (lit "hasSafeVolume") specKeys.
Proof.
  repeat split.
  - vm_compute; discriminate.
  - vm_compute; discriminate.
  - vm_compute; tauto.
  - vm_compute; intros H.
    repeat (destruct H as [H|H]; [discriminate H|]); exact H.
Qed.

(** Every report in the log of a run is the report of the body logged with
    it. *)
Lemma validated_is_validation (w : World) (prompt : jsstring) :
  forall fuel sent fb rc body r,
    In (Validated body r)
       (logOf (generatePdPatch_fuel fuel w sent prompt fb rc)) ->
    r = validation body.
Proof.
  induction fuel as [|fuel IH]; intros sent fb rc body r H; [destruct H|].
  destruct (generatePdPatch_fuel (S fuel) w sent prompt fb rc)
    as [[out evs]|] eqn:E; [|destruct H].
  cbn [logOf] in H.
  apply gen_inv in E
    as [_ _ ->|_ _ _ ->|e _ _ _ ->|text _ _ _ _ ->|text evs' _ _ _ Hn ->].
  - destruct H as [H|[]]; discriminate.
  - destruct H as [H|[]]; discriminate.
  - destruct H as [H|[H|[]]]; discriminate.
  - destruct H as [H|[H|[H|[]]]]; try discriminate.
    now injection H as <- <-.
  - apply in_app_or in H as [H|H].
    + destruct H as [H|[H|[H|[]]]]; try discriminate.
      now injection H as <- <-.
    + eapply IH; rewrite Hn; exact H.
Qed.

(** C5: the report depends on the patch-body text only. Whatever the
    world, the prompt, the feedback, the retry counter and the position in
    the run are, two reports logged for the same body are equal. *)
Theorem validator_is_pure
  (w1 w2 : World) (prompt1 prompt2 : jsstring) (fuel1 fuel2 sent1 sent2 : nat)
  (fb1 fb2 : option jsstring) (rc1 rc2 : nat) (body : jsstring)
  (r1 r2 : Report) :
  In (Validated body r1)
     (logOf (generatePdPatch_fuel fuel1 w1 sent1 prompt1 fb1 rc1)) ->
  In (Validated body r2)
     (logOf (generatePdPatch_fuel fuel2 w2 sent2 prompt2 fb2 rc2)) ->
  r1 = r2.
Proof.
  intros H1 H2.
  apply validated_is_validation in H1, H2.
  congruence.
Qed.

(** C10: a report with [hasProperConnections] has [hasConnections], one
    with [hasVolumeControl] has [hasSafeVolume], and one with
    [hasAudioChain] has [hasDac]. *)
Theorem validation_implications (patch : jsstring) :
  (get (validation patch) "hasProperConnections" = true ->
   get (validation patch) "hasConnections" = true)
  /\ (get (validation patch) "hasVolumeControl" = true ->
      get (validation patch) "hasSafeVolume" = true)
  /\ (get (validation patch) "hasAudioChain" = true ->
      get (validation patch) "hasDac" = true).
Proof.
  repeat split.
  - change ((6 <=? countMatches reConnectNums patch) = true ->
            includes patch (lit "#X connect") = true).
    intros H; apply Nat.leb_le in H.
    apply (countGo_connect_includes patch 0).
    unfold countMatches in H; lia.
  - change (includes patch (lit "*~ 0.5") || includes patch (lit "*~ 0.25")
            = true ->
            includes patch (lit "*~ 0.5") || includes patch (lit "*~ 0.25")
            || includes patch (lit "*~ 0.1") = true).
    intros ->; reflexivity.
  - change ((includes patch (lit "osc~") || includes patch (lit "phasor~")
             || includes patch (lit "noise~"))
            && includes patch (lit "*~") && includes patch (lit "clip~")
            && includes patch (lit "dac~") = true ->
            includes patch (lit "dac~") = true).
    intros H; now apply andb_prop in H.
Qed.

Import Scenario.

(** C5 on the scenarios: the body of scenario B is validated on the retry
    of one run, with feedback and counter 1, and on the first attempt of
    another, without feedback and with counter 0, and the two reports are
    the same. *)
Lemma validator_is_pure_witness :
  In (Validated (patchOf (completion bodyB))
                (validation (patchOf (completion bodyB))))
     (logOf (generatePdPatch_fuel 2 worldB 1 tonePrompt
               (Some (lit "Please include missing components: VuMeter")) 1))
  /\ In (Validated (patchOf (completion bodyB))
                   (validation (patchOf (completion bodyB))))
        (logOf (generatePdPatch_fuel 3 worldSlow 0 (lit "a drone") None 0))
  /\ validation (patchOf (completion bodyB))
     = validation (patchOf (completion bodyB)).
Proof.
  assert (H1 : In (Validated (patchOf (completion bodyB))
                             (validation (patchOf (completion bodyB))))
                  (logOf (generatePdPatch_fuel 2 worldB 1 tonePrompt
                            (Some (lit "Please include missing components: VuMeter"))
                            1))).
  { vm_compute; right; right; left; reflexivity. }
  assert (H2 : In (Validated (patchOf (completion bodyB))
                             (validation (patchOf (completion bodyB))))
                  (logOf (generatePdPatch_fuel 3 worldSlow 0 (lit "a drone")
                            None 0))).
  { vm_compute; right; right; left; reflexivity. }
  split; [exact H1|split; [exact H2|]].
  exact (validator_is_pure _ _ _ _ _ _ _ _ _ _ _ _ _ _ _ H1 H2).
Defined.

(** C10 on scenario A, where the three premises hold. *)
Lemma validation_implications_witness :
  (get (validation bodyA) "hasProperConnections" = true
   /\ get (validation bodyA) "hasConnections" = true)
  /\ (get (validation bodyA) "hasVolumeControl" = true
      /\ get (validation bodyA) "hasSafeVolume" = true)
  /\ (get (validation bodyA) "hasAudioChain" = true
      /\ get (validation bodyA) "hasDac" = true).
Proof.
  destruct (validation_implications bodyA) as [H1 [H2 H3]].
  assert (P1 : get (validation bodyA) "hasProperConnections" = true)
    by (vm_compute; reflexivity).
  assert (P2 : get (validation bodyA) "hasVolumeControl" = true)
    by (vm_compute; reflexivity).
  assert (P3 : get (validation bodyA) "hasAudioChain" = true)
    by (vm_compute; reflexivity).
  exact (conj (conj P1 (H1 P1)) (conj (conj P2 (H2 P2)) (conj P3 (H3 P3)))).
Defined.

(* ====================================================================== *)
(** ** The Response Splitter *)
(* ====================================================================== *)

Lemma nth_error_beyond (parts : list jsstring) (n : nat) :
  List.length parts <= n -> nth_error parts n = None.
Proof. apply nth_error_None. Qed.

(** C9, as the code has it: the two segments are taken by position among
    the parts that the markers, of either kind, cut the text into. A text
    without any marker has an empty patch body and an empty explanation,
    and a text with fewer than two marker occurrences has an empty
    explanation. *)
Theorem splitter_degrades_by_position (text : jsstring) :
  (includes text (lit "---PATCH---") = false ->
   includes text (lit "---EXPLANATION---") = false ->
   patchOf text = [] /\ explanationOf text = [])
  /\ (countMatches reMarkers text <= 1 -> explanationOf text = []).
Proof.
  split.
  - intros HP HE.
    assert (H0 : countMatches reMarkers text = 0).
    { apply countGo_absent; repeat constructor; assumption. }
    unfold patchOf, explanationOf.
    rewrite !nth_error_beyond; [now split| |];
      rewrite split_length, H0; lia.
  - intros H; unfold explanationOf.
    rewrite nth_error_beyond; [reflexivity|].
    rewrite split_length; lia.
Qed.

(** C9 on two answers: one without markers, and one with the explanation
    marker only. *)
Lemma splitter_degrades_by_position_witness :
  (patchOf (lit "no markers here") = []
   /\ explanationOf (lit "no markers here") = [])
  /\ explanationOf oneMarker = [].
Proof.
  split.
  - apply (splitter_degrades_by_position (lit "no markers here"));
      vm_compute; reflexivity.
  - apply (splitter_degrades_by_position oneMarker).
    vm_compute; lia.
Defined.

(** C9 as the specification states it fails on an answer that has the
    explanation marker and not the patch marker: the patch body is the text
    after the explanation marker, not the empty string. *)
Lemma splitter_missing_patch_marker_counterexample :
  includes oneMarker (lit "---PATCH---") = false
  /\ patchOf oneMarker = lit "bar"
  /\ patchOf oneMarker <> [].
Proof.
  repeat split; vm_compute; discriminate.
Qed.

(* ====================================================================== *)
(** ** The Retry Controller: termination and bounds *)
(* ====================================================================== *)

Lemma requests_app (a b : list Event) :
  requests (a ++ b) = requests a ++ requests b.
Proof. apply flat_map_app. Qed.

Lemma retryCounts_app (a b : list Event) :
  retryCounts (a ++ b) = retryCounts a ++ retryCounts b.
Proof. apply flat_map_app. Qed.

(** With fuel for the attempts that are left, an invocation comes to an
    end. *)
Lemma gen_terminates (w : World) (prompt : jsstring) :
  forall fuel sent fb rc,
    1 <= fuel -> 3 - rc <= fuel ->
    exists out evs,
      generatePdPatch_fuel fuel w sent prompt fb rc = Some (out, evs).
Proof.
  induction fuel as [|fuel IH]; intros sent fb rc H1 H3; [lia|].
  destruct (truthy (openai_api_key w)) eqn:K1.
  2:{ rewrite gen_no_key by exact K1; eauto. }
  destruct (startsWith (orEmpty (openai_api_key w)) (lit "sk-")) eqn:K2.
  2:{ rewrite gen_bad_key by assumption; eauto. }
  assert (Hk : credentialOk w = true)
    by (unfold credentialOk; now rewrite K1, K2).
  destruct (create w sent (orEmpty (openai_api_key w))
              (composeRequest prompt fb)) as [text|e|] eqn:Hc.
  - destruct ((rc <? 2) && someFalse (validation (patchOf (orEmpty text))))
      eqn:Hr.
    + rewrite (gen_again w prompt fuel sent fb rc text Hk Hc Hr).
      apply andb_prop in Hr as [Hlt _]; apply Nat.ltb_lt in Hlt.
      destruct (IH (S sent)
                  (Some (repairFeedback (validation (patchOf (orEmpty text)))))
                  (S rc)) as [out [evs E]]; [lia|lia|].
      rewrite E; eauto.
    + rewrite (gen_done w prompt fuel sent fb rc text Hk Hc Hr); eauto.
  - rewrite (gen_failed w prompt fuel sent fb rc e Hk); [eauto|].
    now rewrite Hc.
  - rewrite (gen_failed w prompt fuel sent fb rc timeoutError Hk); [eauto|].
    now rewrite Hc.
Qed.

(** More fuel does not change the result of a run that came to an end. *)
Lemma gen_more_fuel (w : World) (prompt : jsstring) :
  forall fuel fuel' sent fb rc run,
    fuel <= fuel' ->
    generatePdPatch_fuel fuel w sent prompt fb rc = Some run ->
    generatePdPatch_fuel fuel' w sent prompt fb rc = Some run.
Proof.
  induction fuel as [|fuel IH]; intros fuel' sent fb rc [out evs] Hle H;
    [discriminate|].
  destruct fuel' as [|fuel']; [lia|].
  apply gen_inv in H
    as [K1 -> ->|K1 K2 -> ->|e Hk Hf -> ->|text Hk Hc Hr -> ->
       |text evs' Hk Hc Hr Hn ->].
  - now apply gen_no_key.
  - now apply gen_bad_key.
  - now apply gen_failed.
  - now apply gen_done.
  - rewrite (gen_again w prompt fuel' sent fb rc text Hk Hc Hr).
    rewrite (IH fuel' _ _ _ _ ltac:(lia) Hn); reflexivity.
Qed.

(** The invocations of a run count up from the counter of the first one,
    none of them has a counter above 2 unless the first one has, and no
    invocation sends more than one request. *)
Lemma gen_bounded (w : World) (prompt : jsstring) :
  forall fuel sent fb rc out evs,
    generatePdPatch_fuel fuel w sent prompt fb rc = Some (out, evs) ->
    retryCounts evs = seq rc (List.length (retryCounts evs))
    /\ 1 <= List.length (retryCounts evs) <= Nat.max 1 (3 - rc)
    /\ List.length (requests evs) <= List.length (retryCounts evs).
Proof.
  induction fuel as [|fuel IH]; intros sent fb rc out evs H; [discriminate|].
  apply gen_inv in H
    as [K1 -> ->|K1 K2 -> ->|e Hk Hf -> ->|text Hk Hc Hr -> ->
       |text evs' Hk Hc Hr Hn ->].
  1-4: unfold seenOf, retryCounts, requests;
    cbn [flat_map app List.length seq]; repeat split; lia.
  apply IH in Hn as [Hs [Hl Hq]].
  apply andb_prop in Hr as [Hlt _]; apply Nat.ltb_lt in Hlt.
  rewrite retryCounts_app, requests_app.
  change (retryCounts (seenOf prompt rc fb text)) with [rc].
  change (requests (seenOf prompt rc fb text))
    with [composeRequest prompt fb].
  cbn [app List.length seq].
  repeat split; try lia.
  now rewrite <- Hs.
Qed.

(** A top-level call of [generatePdPatch] sends at most three requests. *)
Lemma top_level_requests (w : World) (prompt : jsstring) (fuel sent : nat)
  (fb : option jsstring) (out : Outcome) (evs : list Event) :
  generatePdPatch_fuel fuel w sent prompt fb 0 = Some (out, evs) ->
  List.length (requests evs) <= 3.
Proof.
  intros E.
  pose proof (gen_bounded w prompt _ _ _ _ _ _ E) as [_ [Hl Hq]].
  cbn [Nat.sub Nat.max] in Hl; lia.
Qed.

(** The two handlers call [generatePdPatch] without a retry counter, that
    is with counter 0, and at most once. *)
Lemma handleGenerate_terminates (w : World) (extra : nat) (now created : Z)
  (st : App.State) :
  exists st',
    App.handleGenerate (3 + extra) w now created st = Some st'
    /\ App.sent st <= App.sent st' <= App.sent st + 3.
Proof.
  unfold App.handleGenerate.
  destruct (negb (truthy (Some (trim (App.prompt st))))).
  { eexists; split; [reflexivity|cbn [App.sent App.toast]; lia]. }
  change (App.sent (App.setPdErrors [] (App.setIsGenerating true st)))
    with (App.sent st).
  change (App.prompt (App.setPdErrors [] (App.setIsGenerating true st)))
    with (App.prompt st).
  destruct (gen_terminates w (App.prompt st) (3 + extra) (App.sent st) None 0)
    as [out [evs E]]; [lia|lia|].
  rewrite E.
  pose proof (top_level_requests _ _ _ _ _ _ _ E) as Hq.
  eexists; split; [reflexivity|].
  destruct out as [result|e].
  - destruct (negb (App.everyTrue (App.audioValidation (patch result)))).
    + destruct (includes
                  (message
                     (Error "Generated patch is missing critical audio components"))
                  (lit "API key"));
        cbn [App.sent App.setIsGenerating App.toast App.setShowApiSettings
             App.addSent App.setPdErrors]; lia.
    + cbn [App.sent App.setIsGenerating App.toast App.setHistoryAndStore
           App.setCurrentPatch App.addSent App.setPdErrors]; lia.
  - destruct (includes (message e) (lit "API key"));
      cbn [App.sent App.setIsGenerating App.toast App.setShowApiSettings
           App.addSent App.setPdErrors]; lia.
Qed.

Lemma handleRegenerate_terminates (w : World) (extra : nat) (t1 t2 : Z)
  (errorMessage : jsstring) (st : App.State) :
  exists st',
    App.handleRegenerate (3 + extra) w t1 t2 errorMessage st = Some st'
    /\ App.sent st <= App.sent st' <= App.sent st + 3.
Proof.
  unfold App.handleRegenerate.
  destruct (App.currentPatch st) as [current|].
  2:{ exists st; split; [reflexivity|lia]. }
  change (App.sent (App.setPdErrors [] (App.setIsRegenerating true st)))
    with (App.sent st).
  destruct (gen_terminates w (App.description current) (3 + extra)
              (App.sent st) (Some errorMessage) 0)
    as [out [evs E]]; [lia|lia|].
  rewrite E.
  pose proof (top_level_requests _ _ _ _ _ _ _ E) as Hq.
  eexists; split; [reflexivity|].
  destruct out as [result|e];
    cbn [App.sent App.setIsRegenerating App.toast App.setHistoryAndStore
         App.setCurrentPatch App.addSent App.setPdErrors]; lia.
Qed.

(** C3: a top-level call, whose retry counter is 0, comes to an end
    whenever it is given fuel for three invocations, with the result it has
    with exactly that fuel; the retry counters of its invocations are
    0, 1, 2 in this order or a prefix of this, so each of them is in [0, 2];
    and at most three requests are sent. The two handlers, which make the
    top-level calls, come to an end as well and send at most three requests
    each. *)
Theorem retry_is_bounded (w : World) (prompt : jsstring) (sent : nat)
  (errorFeedback : option jsstring) (extra : nat)
  (now created t1 t2 : Z) (errorMessage : jsstring) (st : App.State) :
  (exists out evs,
     generatePdPatch_fuel (3 + extra) w sent prompt errorFeedback 0
     = Some (out, evs)
     /\ generatePdPatch_fuel 3 w sent prompt errorFeedback 0 = Some (out, evs)
     /\ retryCounts evs = firstn (List.length (retryCounts evs)) [0; 1; 2]
     /\ Forall (fun retryCount => 0 <= retryCount <= 2) (retryCounts evs)
     /\ List.length (requests evs) <= 3)
  /\ (exists st',
        App.handleGenerate (3 + extra) w now created st = Some st'
        /\ App.sent st <= App.sent st' <= App.sent st + 3)
  /\ (exists st',
        App.handleRegenerate (3 + extra) w t1 t2 errorMessage st = Some st'
        /\ App.sent st <= App.sent st' <= App.sent st + 3).
Proof.
  split; [|split; [apply handleGenerate_terminates
                  |apply handleRegenerate_terminates]].
  destruct (gen_terminates w prompt 3 sent errorFeedback 0)
    as [out [evs E]]; [lia|lia|].
  exists out, evs.
  pose proof (gen_bounded w prompt _ _ _ _ _ _ E) as [Hs [Hl Hq]].
  cbn [Nat.sub Nat.max] in Hl.
  assert (Hp : retryCounts evs
               = firstn (List.length (retryCounts evs)) [0; 1; 2]).
  { rewrite Hs at 1.
    destruct (List.length (retryCounts evs)) as [|[|[|[|n]]]];
      try reflexivity; lia. }
  repeat split.
  - exact (gen_more_fuel w prompt 3 (3 + extra) _ _ _ _ ltac:(lia) E).
  - exact E.
  - exact Hp.
  - rewrite Hs; apply Forall_forall; intros n Hin.
    apply in_seq in Hin; lia.
  - lia.
Qed.

(* ====================================================================== *)
(** ** The Completion Client: credentials and failures *)
(* ====================================================================== *)

(** C8: when no key is stored (or the stored key is the empty string) the
    call throws the error of a missing credential, and when the stored key
    does not start with [sk-] it throws the error of a malformed one; in
    both cases no request has been sent. *)
Theorem credential_checked_before_request (w : World) (prompt : jsstring)
  (fuel sent : nat) (errorFeedback : option jsstring) (retryCount : nat) :
  (truthy (openai_api_key w) = false ->
   outcomeOf (generatePdPatch_fuel (S fuel) w sent prompt errorFeedback
                retryCount)
   = Some (Threw MissingCredential)
   /\ requests (logOf (generatePdPatch_fuel (S fuel) w sent prompt
                         errorFeedback retryCount)) = [])
  /\ (truthy (openai_api_key w) = true ->
      startsWith (orEmpty (openai_api_key w)) (lit "sk-") = false ->
      outcomeOf (generatePdPatch_fuel (S fuel) w sent prompt errorFeedback
                   retryCount)
      = Some (Threw InvalidCredentialFormat)
      /\ requests (logOf (generatePdPatch_fuel (S fuel) w sent prompt
                            errorFeedback retryCount)) = []).
Proof.
  split.
  - intros K1; rewrite gen_no_key by exact K1; split; reflexivity.
  - intros K1 K2; rewrite gen_bad_key by assumption; split; reflexivity.
Qed.

(** C8 on the two worlds of scenario C. *)
Lemma credential_checked_before_request_witness :
  (outcomeOf (generatePdPatch_fuel 3 worldNoKey 0 tonePrompt None 0)
   = Some (Threw MissingCredential)
   /\ requests (logOf (generatePdPatch_fuel 3 worldNoKey 0 tonePrompt None 0))
      = [])
  /\ (outcomeOf (generatePdPatch_fuel 3 worldBadKey 0 tonePrompt None 0)
      = Some (Threw InvalidCredentialFormat)
      /\ requests
           (logOf (generatePdPatch_fuel 3 worldBadKey 0 tonePrompt None 0))
         = []).
Proof.
  split.
  - apply (credential_checked_before_request worldNoKey tonePrompt 2 0 None 0).
    reflexivity.
  - apply (credential_checked_before_request worldBadKey tonePrompt 2 0 None
             0); reflexivity.
Defined.

(** A request of a run that fails is the last request of the run, and the
    run ends with what the [catch] clause throws for its error. *)
Lemma gen_failure_is_last (w : World) (prompt : jsstring) :
  forall fuel sent fb rc out evs,
    generatePdPatch_fuel fuel w sent prompt fb rc = Some (out, evs) ->
    forall i req e,
      nth_error (requests evs) i = Some req ->
      failureOf (create w (sent + i) (orEmpty (openai_api_key w)) req)
      = Some e ->
      out = Threw (onCatch e) /\ List.length (requests evs) = S i.
Proof.
  induction fuel as [|fuel IH]; intros sent fb rc out evs H; [discriminate|].
  apply gen_inv in H
    as [K1 -> ->|K1 K2 -> ->|e0 Hk Hf -> ->|text Hk Hc Hr -> ->
       |text evs' Hk Hc Hr Hn ->];
    intros i req e Hi He.
  - destruct i; discriminate.
  - destruct i; discriminate.
  - destruct i as [|[|i]]; try discriminate.
    injection Hi as <-; rewrite Nat.add_0_r in He.
    rewrite Hf in He; injection He as <-; now split.
  - destruct i as [|[|i]]; try discriminate.
    injection Hi as <-; rewrite Nat.add_0_r, Hc in He; discriminate.
  - rewrite requests_app in *.
    change (requests (seenOf prompt rc fb text))
      with [composeRequest prompt fb] in *.
    destruct i as [|i]; cbn [app nth_error List.length] in *.
    + injection Hi as <-; rewrite Nat.add_0_r, Hc in He; discriminate.
    + rewrite Nat.add_succ_r in He.
      destruct (IH _ _ _ _ _ Hn i req e Hi He) as [-> ->]; now split.
Qed.








(* ====================================================================== *)
(** ** The Retry Controller: repair feedback *)
(* ====================================================================== *)

(** In a list whose entries have pairwise different names, an entry is
    determined by its name. *)
Lemma same_name_same_entry {A B : Type} (f : A -> B) (l : list A) :
  NoDup (List.map f l) ->
  forall x y, In x l -> In y l -> f x = f y -> x = y.
Proof.
  induction l as [|a l IH]; intros Hnd x y Hx Hy Hf; [destruct Hx|].
  cbn [List.map] in Hnd; apply NoDup_cons_iff in Hnd as [Hna Hnd].
  destruct Hx as [->|Hx], Hy as [->|Hy].
  - reflexivity.
  - exfalso; apply Hna; rewrite Hf; now apply in_map.
  - exfalso; apply Hna; rewrite <- Hf; now apply in_map.
  - now apply IH.
Qed.

(** The names listed as missing are those of the entries whose value is
    [false]. *)
Lemma missingNames_iff (r : Report) :
  NoDup (List.map (fun e => humanName (fst e)) r) ->
  forall key value,
    In (key, value) r ->
    (In (humanName key) (missingNames r) <-> value = false).
Proof.
  intros Hnd key value Hin; unfold missingNames; split.
  - intros H; apply in_map_iff in H as [[k v] [Hname Hf]].
    apply filter_In in Hf as [Hk Hv].
    assert (E : (k, v) = (key, value)).
    { apply (same_name_same_entry (fun e => humanName (fst e)) r Hnd);
        assumption. }
    injection E as -> ->.
    now destruct value.
  - intros ->.
    apply (in_map (fun e => replaceFirst (lit "has") [] (fst e))
             _ (key, false)).
    apply filter_In; now split.
Qed.

Lemma humanNames_NoDup (patch : jsstring) :
  NoDup (List.map (fun e => humanName (fst e)) (validation patch)).
Proof.
  change (List.map (fun e => humanName (fst e)) (validation patch))
    with (List.map humanName predicateKeys).
  repeat (constructor;
          [ vm_compute; intros H;
            repeat (destruct H as [H|H]; [discriminate H|]); exact H | ]).
  constructor.
Qed.

(** The text of the missing components when the level meter and the
    six connections are all that is missing. *)
Lemma missing_vu_and_connections (patch : jsstring) :
  (forall key value,
     In (key, value) (validation patch) ->
     (value = false <->
      key = lit "hasVuMeter" \/ key = lit "hasProperConnections")) ->
  missingComponents (validation patch) = lit "VuMeter, ProperConnections".
Proof.
  unfold validation.
  repeat match goal with
         | |- context [(lit ?k, ?b)] =>
             tryif is_var b then fail
             else (let v := fresh "v" in generalize b; intros v)
         end.
  intros H.
  repeat match goal with
         | v : bool |- _ =>
             let P := fresh "P" in
             match type of H with
             | context [(?k, v)] =>
                 assert (P : v = false <->
                             k = lit "hasVuMeter"
                             \/ k = lit "hasProperConnections")
                   by (apply H; cbn [In];
                       repeat first [left; reflexivity | right]);
                 destruct v;
                 [ try (exfalso;
                        assert (true = false)
                          by (apply P; first [left; reflexivity
                                             |right; reflexivity]);
                        discriminate)
                 | try (exfalso;
                        destruct (proj1 P eq_refl) as [Q|Q];
                        vm_compute in Q; discriminate) ];
                 clear P
             end
         end.
  vm_compute; reflexivity.
Qed.

(** C6: when an answered request has a report with a false value and the
    retry counter is below 2, the next invocation is given, as feedback, a
    fixed lead followed by the comma-separated human-readable names of the
    predicates of the report, a name being listed exactly when the value of
    its predicate is [false]; the request of that invocation carries the
    feedback in a third message. When [hasVuMeter] and
    [hasProperConnections] are the predicates that fail, the feedback
    contains [VuMeter, ProperConnections]. *)
Theorem repair_feedback_lists_failed_predicates (w : World)
  (prompt : jsstring) (fuel sent : nat) (errorFeedback : option jsstring)
  (retryCount : nat) (text : option jsstring) :
  credentialOk w = true ->
  create w sent (orEmpty (openai_api_key w))
    (composeRequest prompt errorFeedback) = Fulfilled text ->
  retryCount < 2 ->
  someFalse (validation (patchOf (orEmpty text))) = true ->
  generatePdPatch_fuel (S fuel) w sent prompt errorFeedback retryCount
  = match
      generatePdPatch_fuel fuel w (S sent) prompt
        (Some (repairFeedback (validation (patchOf (orEmpty text)))))
        (S retryCount)
    with
    | Some (out, evs) =>
        Some (out, seenOf prompt retryCount errorFeedback text ++ evs)
    | None => None
    end
  /\ messages
       (composeRequest prompt
          (Some (repairFeedback (validation (patchOf (orEmpty text))))))
     = [ {| role := system; content := systemPrompt |};
         {| role := user; content := prompt |};
         {| role := user;
            content :=
              lit "Errors to fix: "
              ++ repairFeedback (validation (patchOf (orEmpty text))) |} ]
  /\ repairFeedback (validation (patchOf (orEmpty text)))
     = lit "Please include missing components: "
       ++ join (lit ", ")
            (missingNames (validation (patchOf (orEmpty text))))
  /\ (forall key value,
        In (key, value) (validation (patchOf (orEmpty text))) ->
        (In (humanName key)
            (missingNames (validation (patchOf (orEmpty text))))
         <-> value = false))
  /\ ((forall key value,
         In (key, value) (validation (patchOf (orEmpty text))) ->
         (value = false <->
          key = lit "hasVuMeter" \/ key = lit "hasProperConnections")) ->
      repairFeedback (validation (patchOf (orEmpty text)))
      = lit "Please include missing components: VuMeter, ProperConnections"
      /\ includes (repairFeedback (validation (patchOf (orEmpty text))))
           (lit "VuMeter, ProperConnections") = true).
Proof.
  intros Hk Hc Hlt Hs.
  assert (Hr : (retryCount <? 2)
               && someFalse (validation (patchOf (orEmpty text))) = true).
  { apply andb_true_intro; split; [now apply Nat.ltb_lt|exact Hs]. }
  split; [now apply gen_again|].
  split; [reflexivity|].
  split; [reflexivity|].
  split; [apply missingNames_iff, humanNames_NoDup|].
  intros Hex.
  unfold repairFeedback.
  rewrite (missing_vu_and_connections _ Hex).
  split; vm_compute; reflexivity.
Qed.

(** C6 on scenario B: the first answer lacks the level meter and has four
    connections, and the second invocation is given the names of these
    two predicates. *)
Lemma repair_feedback_lists_failed_predicates_witness :
  feedbacks (logOf (generatePdPatch_fuel 3 worldB 0 tonePrompt None 0))
  = [ None;
      Some (lit
        "Please include missing components: VuMeter, ProperConnections");
      Some (lit
        "Please include missing components: VuMeter, ProperConnections") ]
  /\ includes
       (repairFeedback (validation (patchOf (completion bodyB))))
       (lit "VuMeter, ProperConnections") = true.
Proof.
  destruct
    (repair_feedback_lists_failed_predicates worldB tonePrompt 2 0 None 0
       (Some (completion bodyB)))
    as [Hrun [_ [_ [_ Hex]]]].
  - reflexivity.
  - reflexivity.
  - lia.
  - vm_compute; reflexivity.
  - split.
    + rewrite Hrun; vm_compute; reflexivity.
    + apply Hex.
      intros key value Hin; vm_compute in Hin.
      repeat (destruct Hin as [Hin|Hin];
              [ injection Hin as <- <-;
                split; intros Q;
                [ try discriminate Q;
                  first [left; reflexivity | right; reflexivity]
                | try reflexivity;
                  destruct Q as [Q|Q]; vm_compute in Q; discriminate Q ]
              | ]).
      destruct Hin.
Defined.

(* ====================================================================== *)
(** ** [handleGenerate]: what becomes of an unvalidated result *)
(* ====================================================================== *)

(** What [handleGenerate] does with a result of [generatePdPatch]. *)
Lemma handleGenerate_resolved (fuel : nat) (w : World) (now created : Z)
  (st : App.State) (result : GenerateResponse) (evs : list Event) :
  truthy (Some (trim (App.prompt st))) = true ->
  generatePdPatch_fuel fuel w (App.sent st) (App.prompt st) None 0
  = Some (Resolved result, evs) ->
  exists st',
    App.handleGenerate fuel w now created st = Some st'
    /\ if App.everyTrue (App.audioValidation (patch result)) then
         App.history st'
         = App.newPatchOf (App.prompt st) result now created
           :: App.history st
         /\ App.currentPatch st'
            = Some (App.newPatchOf (App.prompt st) result now created)
         /\ App.pdPatchHistory st' = Some (App.history st')
         /\ App.content (App.newPatchOf (App.prompt st) result now created)
            = patch result
       else
         App.history st' = App.history st
         /\ App.currentPatch st' = App.currentPatch st
         /\ App.pdPatchHistory st' = App.pdPatchHistory st
         /\ App.toasts st'
            = App.toasts st
              ++ [App.toast_error
                    (lit "Error: Generated patch is missing critical audio components")].
Proof.
  intros Hp Hg.
  unfold App.handleGenerate.
  rewrite Hp; cbn [negb].
  change (App.sent (App.setPdErrors [] (App.setIsGenerating true st)))
    with (App.sent st).
  change (App.prompt (App.setPdErrors [] (App.setIsGenerating true st)))
    with (App.prompt st).
  rewrite Hg.
  destruct (App.everyTrue (App.audioValidation (patch result))) eqn:Ha;
    cbn [negb]; eexists; (split; [reflexivity|]).
  - repeat split.
  - repeat split.
Qed.

(** C2, as the code has it. First, a call whose three answers all arrive,
    the first two with a false value in their reports, does not throw: it
    returns the trimmed segments of the third answer, whatever the report of
    that answer is, after three requests. Second, [handleGenerate] stores
    a returned result in the history, and in [localStorage], when it passes
    the audio check of the handler (an audio source, a volume stage of 0.5
    or 0.25, [dac~] and six times [#X connect]); when it does not, the
    history, the stored history and the current patch stay as they are and
    an error is shown. *)
Theorem exhausted_retry_returns_best_effort (w : World) (prompt : jsstring)
  (extra sent : nat) (errorFeedback : option jsstring)
  (text0 text1 text2 : option jsstring)
  (fuel : nat) (now created : Z) (st : App.State)
  (result : GenerateResponse) (evs : list Event) :
  (credentialOk w = true ->
   create w sent (orEmpty (openai_api_key w))
     (composeRequest prompt errorFeedback) = Fulfilled text0 ->
   someFalse (validation (patchOf (orEmpty text0))) = true ->
   create w (S sent) (orEmpty (openai_api_key w))
     (composeRequest prompt
        (Some (repairFeedback (validation (patchOf (orEmpty text0))))))
   = Fulfilled text1 ->
   someFalse (validation (patchOf (orEmpty text1))) = true ->
   create w (S (S sent)) (orEmpty (openai_api_key w))
     (composeRequest prompt
        (Some (repairFeedback (validation (patchOf (orEmpty text1))))))
   = Fulfilled text2 ->
   outcomeOf (generatePdPatch_fuel (3 + extra) w sent prompt errorFeedback 0)
   = Some (Resolved (responseOf text2))
   /\ List.length
        (requests (logOf (generatePdPatch_fuel (3 + extra) w sent prompt
                            errorFeedback 0))) = 3)
  /\ (truthy (Some (trim (App.prompt st))) = true ->
      generatePdPatch_fuel fuel w (App.sent st) (App.prompt st) None 0
      = Some (Resolved result, evs) ->
      exists st',
        App.handleGenerate fuel w now created st = Some st'
        /\ if App.everyTrue (App.audioValidation (patch result)) then
             App.history st'
             = App.newPatchOf (App.prompt st) result now created
               :: App.history st
             /\ App.currentPatch st'
                = Some (App.newPatchOf (App.prompt st) result now created)
             /\ App.pdPatchHistory st' = Some (App.history st')
             /\ App.content
                  (App.newPatchOf (App.prompt st) result now created)
                = patch result
           else
             App.history st' = App.history st
             /\ App.currentPatch st' = App.currentPatch st
             /\ App.pdPatchHistory st' = App.pdPatchHistory st
             /\ App.toasts st'
                = App.toasts st
                  ++ [App.toast_error
                        (lit "Error: Generated patch is missing critical audio components")]).
Proof.
  split; [|apply handleGenerate_resolved].
  intros Hk H0 F0 H1 F1 H2.
  cbn [Nat.add].
  rewrite (gen_again w prompt (S (S extra)) sent errorFeedback 0 text0 Hk H0)
    by (rewrite F0; reflexivity).
  rewrite (gen_again w prompt (S extra) (S sent) _ 1 text1 Hk H1)
    by (rewrite F1; reflexivity).
  rewrite (gen_done w prompt extra (S (S sent)) _ 2 text2 Hk H2)
    by reflexivity.
  split; reflexivity.
Qed.

(** C2 on a world whose answers all lack the level meter: the third answer
    is returned although its report has a false value, and, as it passes
    the audio check, it is stored as the only patch of the history. *)
Lemma exhausted_retry_returns_best_effort_witness :
  (outcomeOf (generatePdPatch_fuel 3 worldC 0 tonePrompt None 0)
   = Some (Resolved (responseOf (Some (completion bodyC))))
   /\ List.length
        (requests (logOf (generatePdPatch_fuel 3 worldC 0 tonePrompt None 0)))
      = 3)
  /\ someFalse (validation (patch (responseOf (Some (completion bodyC)))))
     = true
  /\ exists st',
       App.handleGenerate 3 worldC 1700000000000 1700000000001 fresh
       = Some st'
       /\ App.history st'
          = [App.newPatchOf tonePrompt (responseOf (Some (completion bodyC)))
               1700000000000 1700000000001].
Proof.
  destruct
    (exhausted_retry_returns_best_effort worldC tonePrompt 0 0 None
       (Some (completion bodyC)) (Some (completion bodyC))
       (Some (completion bodyC)) 3 1700000000000 1700000000001 fresh
       (responseOf (Some (completion bodyC)))
       (logOf (generatePdPatch_fuel 3 worldC 0 tonePrompt None 0)))
    as [Ha Hb].
  split; [|split].
  - apply Ha; vm_compute; reflexivity.
  - vm_compute; reflexivity.
  - destruct Hb as [st' [E Hif]].
    + vm_compute; reflexivity.
    + vm_compute; reflexivity.
    + exists st'; split; [exact E|].
      assert (Ht : App.everyTrue
                     (App.audioValidation
                        (patch (responseOf (Some (completion bodyC)))))
                   = true) by (vm_compute; reflexivity).
      rewrite Ht in Hif.
      exact (proj1 Hif).
Defined.

(** C2 as the specification states it fails on scenario B: after three
    answers that lack the level meter and have four connections the call
    returns the third one, and [handleGenerate] does not store it: the
    history stays empty, nothing is written to [localStorage] and an error
    is shown. *)
Lemma unvalidated_patch_not_stored_counterexample :
  outcomeOf (generatePdPatch_fuel 3 worldB 0 tonePrompt None 0)
  = Some (Resolved (responseOf (Some (completion bodyB))))
  /\ someFalse (validation (patch (responseOf (Some (completion bodyB)))))
     = true
  /\ retryCounts (logOf (generatePdPatch_fuel 3 worldB 0 tonePrompt None 0))
     = [0; 1; 2]
  /\ option_map App.history
       (App.handleGenerate 3 worldB 1700000000000 1700000000001 fresh)
     = Some []
  /\ option_map App.pdPatchHistory
       (App.handleGenerate 3 worldB 1700000000000 1700000000001 fresh)
     = Some None
  /\ option_map App.currentPatch
       (App.handleGenerate 3 worldB 1700000000000 1700000000001 fresh)
     = Some None
  /\ option_map App.toasts
       (App.handleGenerate 3 worldB 1700000000000 1700000000001 fresh)
     = Some [App.toast_error
               (lit "Error: Generated patch is missing critical audio components")].
Proof.
  repeat split; vm_compute; reflexivity.
Qed.

(* ====================================================================== *)
(** ** [handleRegenerate]: the error history of a patch *)
(* ====================================================================== *)

(** C7: when a patch is selected and the regeneration returns a result, the
    selected patch becomes a patch whose error history is a new entry, with
    the error text of the user and the regenerated patch filled in,
    followed by the entries it had, in their order; every other field of
    the patch, its content among them, is the one it had. In the history
    the patches with the name of the selected one are replaced by that
    patch, the others are kept in place, and the history is written to
    [localStorage]. *)
Theorem regeneration_prepends_entry (fuel : nat) (w : World) (t1 t2 : Z)
  (errorMessage : jsstring) (st : App.State) (current : App.PdPatch)
  (result : GenerateResponse) (evs : list Event) :
  App.currentPatch st = Some current ->
  generatePdPatch_fuel fuel w (App.sent st) (App.description current)
    (Some errorMessage) 0 = Some (Resolved result, evs) ->
  exists st' updated entry,
    App.handleRegenerate fuel w t1 t2 errorMessage st = Some st'
    /\ App.currentPatch st' = Some updated
    /\ App.errorHistory updated
       = Some (entry :: match App.errorHistory current with
                        | Some entries => entries
                        | None => []
                        end)
    /\ App.error entry = errorMessage
    /\ App.regeneratedPatch entry
       = Some {| App.regeneratedContent := patch result;
                 App.regeneratedExplanation := explanation result;
                 App.regeneratedTimestamp := t2 |}
    /\ App.content updated = App.content current
    /\ App.name updated = App.name current
    /\ App.explanation updated = App.explanation current
    /\ App.description updated = App.description current
    /\ App.created updated = App.created current
    /\ App.version updated = App.version current
    /\ App.metadata updated = App.metadata current
    /\ App.history st'
       = List.map (fun p => if eqb (App.name p) (App.name current)
                            then updated else p)
           (App.history st)
    /\ App.pdPatchHistory st' = Some (App.history st')
    /\ (In current (App.history st) -> In updated (App.history st')).
Proof.
  intros Hc Hg.
  exists (App.setIsRegenerating false
            (App.setHistoryAndStore
               (List.map (fun p =>
                  if eqb (App.name p) (App.name current)
                  then App.updatedPatchOf current errorMessage result t1 t2
                  else p))
               (App.setCurrentPatch
                  (Some (App.updatedPatchOf current errorMessage result t1 t2))
                  (App.addSent (List.length (requests evs))
                     (App.setPdErrors [] (App.setIsRegenerating true st)))))),
    (App.updatedPatchOf current errorMessage result t1 t2),
    {| App.error := errorMessage; App.timestamp := t1;
       App.regeneratedPatch :=
         Some {| App.regeneratedContent := patch result;
                 App.regeneratedExplanation := explanation result;
                 App.regeneratedTimestamp := t2 |} |}.
  split.
  - unfold App.handleRegenerate; rewrite Hc.
    change (App.sent (App.setPdErrors [] (App.setIsRegenerating true st)))
      with (App.sent st).
    now rewrite Hg.
  - repeat split.
    intros Hin.
    cbn [App.history App.setIsRegenerating App.setHistoryAndStore
         App.setCurrentPatch App.addSent App.setPdErrors].
    apply in_map_iff; exists current; split; [|exact Hin].
    assert (Hn : eqb (App.name current) (App.name current) = true)
      by now apply eqb_eq.
    now rewrite Hn.
Qed.

(** C7 on scenario D: the selected patch has one earlier entry, and the
    feedback [dac~ not connected] is sent for it. *)
Lemma regeneration_prepends_entry_witness :
  exists st' updated entry,
    App.handleRegenerate 3 worldA 2000 2001 (lit "dac~ not connected")
      browsing = Some st'
    /\ App.currentPatch st' = Some updated
    /\ App.errorHistory updated = Some [entry; earlier]
    /\ App.error entry = lit "dac~ not connected"
    /\ App.content updated = bodyB
    /\ App.history st' = [other; updated].
Proof.
  destruct
    (regeneration_prepends_entry 3 worldA 2000 2001
       (lit "dac~ not connected") browsing selected
       (responseOf (Some (completion bodyA)))
       (logOf (generatePdPatch_fuel 3 worldA 3 tonePrompt
                 (Some (lit "dac~ not connected")) 0)))
    as [st' [updated [entry H]]].
  - reflexivity.
  - vm_compute; reflexivity.
  - exists st', updated, entry.
    destruct H as (H1 & H2 & H3 & H4 & _ & H6 & H7 & _ & _ & _ & _ & _
                   & H13 & _).
    repeat split; assumption.
Defined.

(* ====================================================================== *)
(** ** [truncateText] and [filteredHistory] *)
(* ====================================================================== *)

(** X1: a truncated text has at most [maxLength + 3] code units and at most
    two more than the text, and it agrees with the text on the first
    [maxLength] code units. *)
Theorem truncateText_bounds (text : jsstring) (maxLength : nat) :
  List.length (Handlers.truncateText text maxLength) <= maxLength + 3
  /\ List.length (Handlers.truncateText text maxLength)
     <= List.length text + 2
  /\ firstn maxLength (Handlers.truncateText text maxLength)
     = firstn maxLength text.
Proof.
  unfold Handlers.truncateText.
  destruct (maxLength <? List.length text) eqn:E.
  - apply Nat.ltb_lt in E.
    assert (Hl : List.length (firstn maxLength text) = maxLength)
      by (rewrite length_firstn; lia).
    rewrite length_app, Hl.
    change (List.length (lit "...")) with 3.
    repeat split; try lia.
    rewrite firstn_app, Hl, Nat.sub_diag, firstn_firstn, Nat.min_id.
    cbn [firstn]; apply app_nil_r.
  - apply Nat.ltb_ge in E; repeat split; lia.
Qed.

(** X2: truncating twice to the same length is truncating once. *)
Theorem truncateText_idempotent (text : jsstring) (maxLength : nat) :
  Handlers.truncateText (Handlers.truncateText text maxLength) maxLength
  = Handlers.truncateText text maxLength.
Proof.
  unfold Handlers.truncateText at 2 3.
  destruct (maxLength <? List.length text) eqn:E;
    [|unfold Handlers.truncateText; now rewrite E].
  apply Nat.ltb_lt in E.
  assert (Hl : List.length (firstn maxLength text) = maxLength)
    by (rewrite length_firstn; lia).
  unfold Handlers.truncateText.
  assert (Hlt : (maxLength <? List.length (firstn maxLength text ++ lit "..."))
                = true).
  { apply Nat.ltb_lt; rewrite length_app, Hl.
    change (List.length (lit "...")) with 3; lia. }
  rewrite Hlt.
  rewrite firstn_app, Hl, Nat.sub_diag, firstn_firstn, Nat.min_id.
  cbn [firstn]; now rewrite app_nil_r.
Qed.

Lemma startsWith_self (s : jsstring) : startsWith s s = true.
Proof.
  induction s as [|c s IH]; [reflexivity|].
  cbn [startsWith]; now rewrite N.eqb_refl, IH.
Qed.

Lemma includes_self (s : jsstring) : includes s s = true.
Proof. apply includes_here, startsWith_self. Qed.

(** X3: a patch of the history is listed when the search text is its
    description, and when it is its content, whatever their case is. *)
Theorem filteredHistory_finds_own_text (toLowerCase : jsstring -> jsstring)
  (history : list App.PdPatch) (patch : App.PdPatch) :
  In patch history ->
  In patch
     (Handlers.filteredHistory toLowerCase history (App.description patch))
  /\ In patch
        (Handlers.filteredHistory toLowerCase history (App.content patch)).
Proof.
  intros Hin; unfold Handlers.filteredHistory; split.
  - destruct (negb (truthy (Some (App.description patch)))); [exact Hin|].
    apply filter_In; split; [exact Hin|].
    now rewrite includes_self.
  - destruct (negb (truthy (Some (App.content patch)))); [exact Hin|].
    apply filter_In; split; [exact Hin|].
    rewrite (includes_self (toLowerCase (App.content patch))).
    apply orb_true_r.
Qed.

(** X3 on a history of two patches, searched for the description of the
    second one. *)
Lemma filteredHistory_finds_own_text_witness :
  In Sample.droneEntry
     (Handlers.filteredHistory Sample.asciiLower
        [Scenario.other; Sample.droneEntry] (lit "Low Drone"))
  /\ In Sample.droneEntry
        (Handlers.filteredHistory Sample.asciiLower
           [Scenario.other; Sample.droneEntry] Scenario.bodyA).
Proof.
  apply (filteredHistory_finds_own_text Sample.asciiLower
           [Scenario.other; Sample.droneEntry] Sample.droneEntry).
  right; left; reflexivity.
Defined.

(* ====================================================================== *)
(** ** [handleApiKeySubmit] *)
(* ====================================================================== *)

(** X4: the settings form stores exactly the keys that pass the two checks
    of [generatePdPatch]. A key that passes them is stored, the error of the
    form is cleared and the settings are closed; for any other key the
    stored key and the state stay as they are and the form shows an
    error. *)
Theorem handleApiKeySubmit_agrees_with_generator (w : World)
  (form : Handlers.KeyForm) (st : App.State) :
  if credentialOk (Handlers.storeKey (Handlers.apiKey form) w) then
    Handlers.handleApiKeySubmit w form st
    = (Handlers.storeKey (Handlers.apiKey form) w,
       Handlers.setApiKeyError None form,
       App.toast (App.toast_success (lit "API key saved successfully"))
         (App.setShowApiSettings false st))
  else
    exists problem,
      Handlers.handleApiKeySubmit w form st
      = (w, Handlers.setApiKeyError (Some problem) form, st).
Proof.
  unfold credentialOk, Handlers.handleApiKeySubmit.
  cbn [Handlers.storeKey openai_api_key orEmpty Handlers.setApiKeyError
       Handlers.apiKey].
  destruct (Handlers.apiKey form) as [|c key]; cbn [truthy negb andb].
  - eexists; reflexivity.
  - destruct (startsWith (c :: key) (lit "sk-")); cbn [negb].
    + reflexivity.
    + eexists; reflexivity.
Qed.

(* ====================================================================== *)
(** ** [handleGenerate]: refusals and failures *)
(* ====================================================================== *)

Lemma trimStart_white (s : jsstring) :
  Forall (fun c => isWhiteSpace c = true) s -> trimStart s = [].
Proof.
  induction 1 as [|c s Hc _ IH]; [reflexivity|].
  cbn [trimStart]; now rewrite Hc.
Qed.

Lemma trim_white (s : jsstring) :
  Forall (fun c => isWhiteSpace c = true) s -> trim s = [].
Proof.
  intros H; unfold trim; now rewrite (trimStart_white s H).
Qed.

(** X5: a prompt made of white space only is refused: whatever the fuel is,
    the handler shows one error, sends no request and leaves the rest of
    the state as it is. *)
Theorem handleGenerate_refuses_blank_prompt (fuel : nat) (w : World)
  (now created : Z) (st : App.State) :
  Forall (fun c => isWhiteSpace c = true) (App.prompt st) ->
  App.handleGenerate fuel w now created st
  = Some (App.toast (App.toast_error (lit "Please enter a prompt")) st).
Proof.
  intros H; unfold App.handleGenerate.
  now rewrite (trim_white _ H).
Qed.

(** X5 on a prompt of two spaces and a line feed. *)
Lemma handleGenerate_refuses_blank_prompt_witness :
  App.handleGenerate 0 Scenario.worldA 5 6
    (App.setCurrentPatch None
       {| App.prompt := [32; 32; 10]%N; App.isGenerating := false;
          App.currentPatch := None; App.history := [Scenario.other];
          App.pdErrors := []; App.isRegenerating := false;
          App.showApiSettings := false; App.toasts := [];
          App.pdPatchHistory := Some [Scenario.other]; App.sent := 0 |})
  = Some (App.toast (App.toast_error (lit "Please enter a prompt"))
            (App.setCurrentPatch None
               {| App.prompt := [32; 32; 10]%N; App.isGenerating := false;
                  App.currentPatch := None; App.history := [Scenario.other];
                  App.pdErrors := []; App.isRegenerating := false;
                  App.showApiSettings := false; App.toasts := [];
                  App.pdPatchHistory := Some [Scenario.other];
                  App.sent := 0 |})).
Proof.
  apply handleGenerate_refuses_blank_prompt.
  repeat constructor.
Defined.

(** What [handleGenerate] does when [generatePdPatch] throws. *)
Lemma handleGenerate_threw (fuel : nat) (w : World) (now created : Z)
  (st : App.State) (e : JsError) (evs : list Event) :
  truthy (Some (trim (App.prompt st))) = true ->
  generatePdPatch_fuel fuel w (App.sent st) (App.prompt st) None 0
  = Some (Threw e, evs) ->
  App.handleGenerate fuel w now created st
  = Some
      (App.setIsGenerating false
         (if includes (message e) (lit "API key") then
            App.setShowApiSettings true
              (App.toast (App.toast_error (message e))
                 (App.addSent (List.length (requests evs))
                    (App.setPdErrors [] (App.setIsGenerating true st))))
          else
            App.toast (App.toast_error (lit "Error: " ++ message e))
              (App.addSent (List.length (requests evs))
                 (App.setPdErrors [] (App.setIsGenerating true st))))).
Proof.
  intros Hp Hg; unfold App.handleGenerate.
  rewrite Hp; cbn [negb].
  change (App.sent (App.setPdErrors [] (App.setIsGenerating true st)))
    with (App.sent st).
  change (App.prompt (App.setPdErrors [] (App.setIsGenerating true st)))
    with (App.prompt st).
  now rewrite Hg.
Qed.

(** X6: when no key is stored, or the stored key does not start with
    [sk-], [handleGenerate] shows the bare error code after [Error: ] and
    does not open the settings: the two codes do not contain [API key]. No
    request is sent and the history and the current patch stay as they
    are. *)
Theorem handleGenerate_without_credential (fuel : nat) (w : World)
  (now created : Z) (st : App.State) :
  truthy (Some (trim (App.prompt st))) = true ->
  credentialOk w = false ->
  exists st',
    App.handleGenerate (S fuel) w now created st = Some st'
    /\ App.toasts st'
       = App.toasts st
         ++ [App.toast_error
               (if truthy (openai_api_key w)
                then lit "Error: API_KEY_INVALID"
                else lit "Error: API_KEY_MISSING")]
    /\ App.showApiSettings st' = App.showApiSettings st
    /\ App.sent st' = App.sent st
    /\ App.history st' = App.history st
    /\ App.currentPatch st' = App.currentPatch st
    /\ App.pdPatchHistory st' = App.pdPatchHistory st
    /\ App.isGenerating st' = false.
Proof.
  intros Hp Hk; unfold credentialOk in Hk.
  destruct (truthy (openai_api_key w)) eqn:K1.
  - cbn [andb] in Hk.
    rewrite (handleGenerate_threw (S fuel) w now created st
               (Error "API_KEY_INVALID") [Invoked 0 None] Hp)
      by (now apply gen_bad_key).
    eexists; split; [reflexivity|].
    repeat split; cbn; apply Nat.add_0_r.
  - rewrite (handleGenerate_threw (S fuel) w now created st
               (Error "API_KEY_MISSING") [Invoked 0 None] Hp)
      by (now apply gen_no_key).
    eexists; split; [reflexivity|].
    repeat split; cbn; apply Nat.add_0_r.
Qed.

(** X6 on the world without a key. *)
Lemma handleGenerate_without_credential_witness :
  exists st',
    App.handleGenerate 3 Scenario.worldNoKey 5 6 Scenario.fresh = Some st'
    /\ App.toasts st' = [App.toast_error (lit "Error: API_KEY_MISSING")]
    /\ App.showApiSettings st' = false.
Proof.
  destruct (handleGenerate_without_credential 2 Scenario.worldNoKey 5 6
              Scenario.fresh)
    as [st' [E [Ht [Hs _]]]].
  - vm_compute; reflexivity.
  - reflexivity.
  - exists st'; repeat split; assumption.
Defined.

Lemma eqb_neq (a b : jsstring) : a <> b -> eqb a b = false.
Proof.
  intros Hne; destruct (eqb a b) eqn:Q; [|reflexivity].
  apply eqb_eq in Q; contradiction.
Qed.

(** The [catch] clause leaves an error alone unless it has one of the two
    codes or one of the two statuses. *)
Lemma onCatch_other (e : JsError) :
  message e <> lit "API_KEY_MISSING" ->
  message e <> lit "API_KEY_INVALID" ->
  status e <> Some 401%Z -> status e <> Some 429%Z ->
  onCatch e = e.
Proof.
  intros H1 H2 H401 H429; unfold onCatch.
  rewrite (eqb_neq _ _ H1), (eqb_neq _ _ H2).
  destruct (status e) as [z|]; [|reflexivity].
  destruct (Z.eq_dec z 401) as [->|N1]; [congruence|].
  destruct (Z.eq_dec z 429) as [->|N2]; [congruence|].
  destruct z as [|p|p]; try reflexivity.
  do 9 (destruct p as [p|p|]; try reflexivity); congruence.
Qed.

Lemma onCatch_401 (e : JsError) :
  message e <> lit "API_KEY_MISSING" ->
  message e <> lit "API_KEY_INVALID" ->
  status e = Some 401%Z ->
  onCatch e
  = Error "Invalid API key. Please check your OpenAI API key in settings".
Proof.
  intros H1 H2 Hs; unfold onCatch.
  now rewrite (eqb_neq _ _ H1), (eqb_neq _ _ H2), Hs.
Qed.

Lemma onCatch_429 (e : JsError) :
  message e <> lit "API_KEY_MISSING" ->
  message e <> lit "API_KEY_INVALID" ->
  status e = Some 429%Z ->
  onCatch e = Error "API rate limit exceeded. Please try again later".
Proof.
  intros H1 H2 Hs; unfold onCatch.
  now rewrite (eqb_neq _ _ H1), (eqb_neq _ _ H2), Hs.
Qed.

(** What leaves the [catch] clause has neither of the two statuses and
    neither of the two codes. *)
Lemma onCatch_classified (e : JsError) :
  status (onCatch e) <> Some 401%Z
  /\ status (onCatch e) <> Some 429%Z
  /\ message (onCatch e) <> lit "API_KEY_MISSING"
  /\ message (onCatch e) <> lit "API_KEY_INVALID".
Proof.
  destruct (eqb (message e) (lit "API_KEY_MISSING")) eqn:M1.
  { unfold onCatch; rewrite M1.
    repeat split; vm_compute; discriminate. }
  destruct (eqb (message e) (lit "API_KEY_INVALID")) eqn:M2.
  { unfold onCatch; rewrite M1, M2.
    repeat split; vm_compute; discriminate. }
  assert (H1 : message e <> lit "API_KEY_MISSING").
  { intros Q; apply eqb_eq in Q; congruence. }
  assert (H2 : message e <> lit "API_KEY_INVALID").
  { intros Q; apply eqb_eq in Q; congruence. }
  assert (Hdec : forall z : Z,
             status e = Some z \/ status e <> Some z).
  { intros z; destruct (status e) as [y|]; [|right; discriminate].
    destruct (Z.eq_dec y z) as [->|N]; [now left|right; congruence]. }
  destruct (Hdec 401%Z) as [S1|S1].
  { rewrite (onCatch_401 e H1 H2 S1).
    repeat split; vm_compute; discriminate. }
  destruct (Hdec 429%Z) as [S2|S2].
  { rewrite (onCatch_429 e H1 H2 S2).
    repeat split; vm_compute; discriminate. }
  rewrite (onCatch_other e H1 H2 S1 S2).
  repeat split; assumption.
Qed.

(** X7: when the service rejects a request of the generation with status
    401, [handleGenerate] shows the fixed text about the key and opens the
    settings; with status 429 it shows the fixed text about the rate limit
    after [Error: ] and leaves the settings as they are. In both cases the
    history stays as it is. *)
Theorem handleGenerate_on_rejection (fuel : nat) (w : World)
  (now created : Z) (st : App.State) (i : nat) (req : ChatRequest)
  (e : JsError) (code : Z) :
  truthy (Some (trim (App.prompt st))) = true ->
  nth_error
    (requests (logOf (generatePdPatch_fuel fuel w (App.sent st)
                        (App.prompt st) None 0))) i = Some req ->
  create w (App.sent st + i) (orEmpty (openai_api_key w)) req = Rejected e ->
  status e = Some code ->
  code = 401%Z \/ code = 429%Z ->
  message e <> lit "API_KEY_MISSING" ->
  message e <> lit "API_KEY_INVALID" ->
  exists st',
    App.handleGenerate fuel w now created st = Some st'
    /\ App.toasts st'
       = App.toasts st
         ++ [App.toast_error
               (if (code =? 401)%Z
                then lit
  "Invalid API key. Please check your OpenAI API key in settings"
                else lit
  "Error: API rate limit exceeded. Please try again later")]
    /\ App.showApiSettings st'
       = (if (code =? 401)%Z then true else App.showApiSettings st)
    /\ App.sent st' = App.sent st + S i
    /\ App.history st' = App.history st
    /\ App.pdPatchHistory st' = App.pdPatchHistory st.
Proof.
  intros Hp Hi Hc Hs Hcode H1 H2.
  destruct (generatePdPatch_fuel fuel w (App.sent st) (App.prompt st) None 0)
    as [[out evs]|] eqn:E; [|destruct i; discriminate].
  cbn [logOf] in Hi.
  destruct (gen_failure_is_last w (App.prompt st) _ _ _ _ _ _ E i req e Hi)
    as [-> Hl]; [now rewrite Hc|].
  rewrite (handleGenerate_threw fuel w now created st _ evs Hp E), Hl.
  destruct Hcode as [-> | ->].
  - rewrite (onCatch_401 e H1 H2 Hs).
    eexists; split; [reflexivity|]; repeat split.
  - rewrite (onCatch_429 e H1 H2 Hs).
    eexists; split; [reflexivity|]; repeat split.
Qed.

(** X7 on the world whose service rejects the key. *)
Lemma handleGenerate_on_rejection_witness :
  exists st',
    App.handleGenerate 3 Scenario.world401 5 6 Scenario.fresh = Some st'
    /\ App.toasts st'
       = [App.toast_error (lit
  "Invalid API key. Please check your OpenAI API key in settings")]
    /\ App.showApiSettings st' = true.
Proof.
  destruct (handleGenerate_on_rejection 3 Scenario.world401 5 6
              Scenario.fresh 0
              (composeRequest Scenario.tonePrompt None)
              Scenario.unauthorized 401)
    as [st' [E [Ht [Hs _]]]].
  - vm_compute; reflexivity.
  - vm_compute; reflexivity.
  - reflexivity.
  - reflexivity.
  - now left.
  - vm_compute; discriminate.
  - vm_compute; discriminate.
  - exists st'; repeat split; assumption.
Defined.

(* ====================================================================== *)
(** ** [generatePdPatch]: what the caller can tell from an error *)
(* ====================================================================== *)

Lemma gen_thrown_status (w : World) (prompt : jsstring) :
  forall fuel sent fb rc e evs,
    generatePdPatch_fuel fuel w sent prompt fb rc = Some (Threw e, evs) ->
    status e <> Some 401%Z
    /\ status e <> Some 429%Z
    /\ (requests evs = [] ->
        message e = lit "API_KEY_MISSING"
        \/ message e = lit "API_KEY_INVALID").
Proof.
  induction fuel as [|fuel IH]; intros sent fb rc e evs H; [discriminate|].
  apply gen_inv in H
    as [K1 Ho ->|K1 K2 Ho ->|e0 Hk Hf Ho ->|text Hk Hc Hr Ho ->
       |text evs' Hk Hc Hr Hn ->].
  - injection Ho as ->.
    split; [discriminate|split; [discriminate|]]; intros _; now left.
  - injection Ho as ->.
    split; [discriminate|split; [discriminate|]]; intros _; now right.
  - injection Ho as ->.
    destruct (onCatch_classified e0) as (S1 & S2 & _).
    split; [exact S1|split; [exact S2|]]; discriminate.
  - discriminate.
  - destruct (IH _ _ _ _ _ Hn) as (S1 & S2 & _).
    split; [exact S1|split; [exact S2|]].
    rewrite requests_app; intros Q; apply app_eq_nil in Q as [Q _].
    discriminate Q.
Qed.

(** X8: an error that [generatePdPatch] throws never has status 401 or
    429. When the call threw without having sent a request, the message
    of the error is [API_KEY_MISSING] or [API_KEY_INVALID]; when it threw
    because a request of the call failed, the error is what the [catch]
    clause made of the failure, and its message is neither of the two. *)
Theorem thrown_errors_are_classified (w : World) (prompt : jsstring)
  (fuel sent : nat) (errorFeedback : option jsstring) (retryCount : nat)
  (e : JsError) :
  outcomeOf (generatePdPatch_fuel fuel w sent prompt errorFeedback retryCount)
  = Some (Threw e) ->
  status e <> Some 401%Z
  /\ status e <> Some 429%Z
  /\ (requests
        (logOf (generatePdPatch_fuel fuel w sent prompt errorFeedback
                  retryCount)) = [] ->
      message e = lit "API_KEY_MISSING" \/ message e = lit "API_KEY_INVALID")
  /\ (forall i req e0,
        nth_error
          (requests
             (logOf (generatePdPatch_fuel fuel w sent prompt errorFeedback
                       retryCount))) i = Some req ->
        failureOf (create w (sent + i) (orEmpty (openai_api_key w)) req)
        = Some e0 ->
        e = onCatch e0
        /\ message e <> lit "API_KEY_MISSING"
        /\ message e <> lit "API_KEY_INVALID").
Proof.
  destruct (generatePdPatch_fuel fuel w sent prompt errorFeedback retryCount)
    as [[out evs]|] eqn:E; [|discriminate].
  cbn [outcomeOf option_map fst logOf].
  intros Q; injection Q as ->.
  destruct (gen_thrown_status w prompt _ _ _ _ _ _ E) as (S1 & S2 & Hm).
  split; [exact S1|split; [exact S2|split; [exact Hm|]]].
  intros i req e0 Hi Hf.
  destruct (gen_failure_is_last w prompt _ _ _ _ _ _ E i req e0 Hi Hf)
    as [Q _].
  injection Q as ->.
  destruct (onCatch_classified e0) as (_ & _ & M1 & M2).
  split; [reflexivity|split; assumption].
Qed.

(** X8 on the world whose service answers with status 401. *)
Lemma thrown_errors_are_classified_witness :
  status (Error
    "Invalid API key. Please check your OpenAI API key in settings")
  <> Some 401%Z
  /\ Error "Invalid API key. Please check your OpenAI API key in settings"
     = onCatch Scenario.unauthorized.
Proof.
  destruct (thrown_errors_are_classified Scenario.world401
              Scenario.tonePrompt 3 0 None 0
              (Error
    "Invalid API key. Please check your OpenAI API key in settings"))
    as (S1 & _ & _ & Hf).
  - vm_compute; reflexivity.
  - split; [exact S1|].
    destruct (Hf 0 (composeRequest Scenario.tonePrompt None)
                Scenario.unauthorized) as [Q _].
    + vm_compute; reflexivity.
    + reflexivity.
    + exact Q.
Defined.

(** X9: an empty feedback text counts as no feedback: the call sends the
    same requests and ends in the same way as the call without
    feedback. *)
Theorem empty_feedback_is_no_feedback (w : World) (prompt : jsstring)
  (fuel sent retryCount : nat) :
  outcomeOf (generatePdPatch_fuel fuel w sent prompt (Some []) retryCount)
  = outcomeOf (generatePdPatch_fuel fuel w sent prompt None retryCount)
  /\ requests
       (logOf (generatePdPatch_fuel fuel w sent prompt (Some []) retryCount))
     = requests
         (logOf (generatePdPatch_fuel fuel w sent prompt None retryCount))
  /\ List.length (messages (composeRequest prompt (Some []))) = 2.
Proof.
  split; [|split; [|reflexivity]];
    (destruct fuel as [|fuel]; [reflexivity|]);
    cbn [generatePdPatch_fuel];
    change (composeRequest prompt (Some [])) with (composeRequest prompt None);
    destruct (negb (truthy (openai_api_key w))); try reflexivity;
    destruct (negb (startsWith (orEmpty (openai_api_key w)) (lit "sk-")));
    try reflexivity;
    destruct (create w sent (orEmpty (openai_api_key w))
                (composeRequest prompt None)) as [text|e|];
    try reflexivity;
    destruct ((retryCount <? 2)
              && someFalse (validation (patchOf (orEmpty text))));
    try reflexivity;
    destruct (generatePdPatch_fuel fuel w (S sent) prompt
                (Some (repairFeedback (validation (patchOf (orEmpty text)))))
                (S retryCount)) as [[out evs]|];
    reflexivity.
Qed.

(* ====================================================================== *)
(** ** The history and its stored copy *)
(* ====================================================================== *)

(** How [handleGenerate] leaves the history, its stored copy and the
    current patch. *)
Lemma handleGenerate_cases (fuel : nat) (w : World) (now created : Z)
  (st st' : App.State) :
  App.handleGenerate fuel w now created st = Some st' ->
  (App.history st' = App.history st
   /\ App.pdPatchHistory st' = App.pdPatchHistory st
   /\ App.currentPatch st' = App.currentPatch st)
  \/ (exists result,
        App.history st'
        = App.newPatchOf (App.prompt st) result now created
          :: App.history st
        /\ App.pdPatchHistory st' = Some (App.history st')
        /\ App.currentPatch st'
           = Some (App.newPatchOf (App.prompt st) result now created)).
Proof.
  unfold App.handleGenerate.
  destruct (negb (truthy (Some (trim (App.prompt st))))).
  { intros Q; injection Q as <-; left; repeat split. }
  change (App.sent (App.setPdErrors [] (App.setIsGenerating true st)))
    with (App.sent st).
  change (App.prompt (App.setPdErrors [] (App.setIsGenerating true st)))
    with (App.prompt st).
  destruct (generatePdPatch_fuel fuel w (App.sent st) (App.prompt st) None 0)
    as [[[result|e] evs]|]; [| |discriminate].
  - destruct (negb (App.everyTrue (App.audioValidation (patch result)))).
    + destruct (includes
                  (message
                     (Error "Generated patch is missing critical audio components"))
                  (lit "API key"));
        intros Q; injection Q as <-; left; repeat split.
    + intros Q; injection Q as <-; right; exists result; repeat split.
  - destruct (includes (message e) (lit "API key"));
      intros Q; injection Q as <-; left; repeat split.
Qed.

(** How [handleRegenerate] leaves them. *)
Lemma handleRegenerate_cases (fuel : nat) (w : World) (t1 t2 : Z)
  (errorMessage : jsstring) (st st' : App.State) :
  App.handleRegenerate fuel w t1 t2 errorMessage st = Some st' ->
  (App.history st' = App.history st
   /\ App.pdPatchHistory st' = App.pdPatchHistory st
   /\ App.currentPatch st' = App.currentPatch st)
  \/ (exists current result,
        App.currentPatch st = Some current
        /\ App.currentPatch st'
           = Some (App.updatedPatchOf current errorMessage result t1 t2)
        /\ App.history st'
           = List.map
               (fun p =>
                  if eqb (App.name p) (App.name current)
                  then App.updatedPatchOf current errorMessage result t1 t2
                  else p)
               (App.history st)
        /\ App.pdPatchHistory st' = Some (App.history st')).
Proof.
  unfold App.handleRegenerate.
  destruct (App.currentPatch st) as [current|] eqn:Hc.
  2:{ intros Q; injection Q as <-; left; repeat split; exact Hc. }
  change (App.sent (App.setPdErrors [] (App.setIsRegenerating true st)))
    with (App.sent st).
  destruct (generatePdPatch_fuel fuel w (App.sent st)
              (App.description current) (Some errorMessage) 0)
    as [[[result|e] evs]|]; [| |discriminate].
  - intros Q; injection Q as <-; right; exists current, result.
    repeat split.
  - intros Q; injection Q as <-; left; repeat split; exact Hc.
Qed.

(** X10: no handler changes the history without writing it to
    [localStorage]: when the [pdPatchHistory] entry is the serialisation of
    the history on screen, or is absent while the history is empty, this
    still holds after generating, regenerating, clearing the history,
    viewing a regenerated code, downloading and saving a key. *)
Theorem handlers_keep_storage_in_step (fuel : nat) (w : World)
  (now created t1 t2 : Z) (errorMessage content : jsstring)
  (form : Handlers.KeyForm) (st : App.State) :
  savedInStep st ->
  (forall st',
     App.handleGenerate fuel w now created st = Some st' -> savedInStep st')
  /\ (forall st',
        App.handleRegenerate fuel w t1 t2 errorMessage st = Some st' ->
        savedInStep st')
  /\ savedInStep (Handlers.clearHistory st)
  /\ savedInStep (Handlers.handleViewCode content st)
  /\ savedInStep (fst (Handlers.handleDownload st))
  /\ savedInStep (snd (Handlers.handleApiKeySubmit w form st)).
Proof.
  unfold savedInStep; intros Hp.
  split; [|split; [|split; [|split; [|split]]]].
  - intros st' H; apply handleGenerate_cases in H
      as [(Hh & Hs & _)|(result & Hh & Hs & _)].
    + now rewrite Hh, Hs.
    + now rewrite Hs.
  - intros st' H; apply handleRegenerate_cases in H
      as [(Hh & Hs & _)|(current & result & _ & _ & Hh & Hs)].
    + now rewrite Hh, Hs.
    + now rewrite Hs.
  - reflexivity.
  - exact Hp.
  - unfold Handlers.handleDownload.
    destruct (App.currentPatch st); exact Hp.
  - unfold Handlers.handleApiKeySubmit.
    destruct (negb (truthy (Some (Handlers.apiKey
                                    (Handlers.setApiKeyError None form)))));
      [exact Hp|].
    destruct (negb (startsWith
                      (Handlers.apiKey (Handlers.setApiKeyError None form))
                      (lit "sk-"))); exact Hp.
Qed.

(** X10 on scenario D. *)
Lemma handlers_keep_storage_in_step_witness :
  savedInStep Scenario.browsing
  /\ (exists st',
        App.handleRegenerate 3 Scenario.worldA 2000 2001
          (lit "dac~ not connected") Scenario.browsing = Some st'
        /\ savedInStep st')
  /\ savedInStep (Handlers.clearHistory Scenario.browsing).
Proof.
  assert (Hp : savedInStep Scenario.browsing) by reflexivity.
  destruct (handlers_keep_storage_in_step 3 Scenario.worldA 5 6 2000 2001
              (lit "dac~ not connected") [] (Sample.form "sk-1")
              Scenario.browsing Hp)
    as (_ & Hr & Hc & _).
  split; [exact Hp|split; [|exact Hc]].
  destruct (App.handleRegenerate 3 Scenario.worldA 2000 2001
              (lit "dac~ not connected") Scenario.browsing)
    as [st'|] eqn:E.
  - exists st'; split; [reflexivity|]; now apply Hr.
  - exfalso; vm_compute in E; discriminate E.
Defined.

(** X11: [handleRegenerate] never adds, removes or reorders patches of the
    history: whatever the outcome of the regeneration is, the names of the
    patches of the history are the same, in the same order. *)
Theorem handleRegenerate_keeps_names (fuel : nat) (w : World) (t1 t2 : Z)
  (errorMessage : jsstring) (st st' : App.State) :
  App.handleRegenerate fuel w t1 t2 errorMessage st = Some st' ->
  List.map App.name (App.history st') = List.map App.name (App.history st)
  /\ List.length (App.history st') = List.length (App.history st).
Proof.
  intros H; apply handleRegenerate_cases in H
    as [(Hh & _)|(current & result & _ & _ & Hh & _)]; rewrite Hh.
  - split; reflexivity.
  - split; [|apply length_map].
    rewrite map_map; apply map_ext; intros p.
    destruct (eqb (App.name p) (App.name current)) eqn:E; [|reflexivity].
    apply eqb_eq in E; now rewrite E.
Qed.

(** X11 on scenario D. *)
Lemma handleRegenerate_keeps_names_witness :
  exists st',
    App.handleRegenerate 3 Scenario.worldA 2000 2001
      (lit "dac~ not connected") Scenario.browsing = Some st'
    /\ List.map App.name (App.history st')
       = [lit "patch_2"; lit "patch_1"].
Proof.
  destruct (App.handleRegenerate 3 Scenario.worldA 2000 2001
              (lit "dac~ not connected") Scenario.browsing)
    as [st'|] eqn:E.
  - exists st'; split; [reflexivity|].
    destruct (handleRegenerate_keeps_names 3 Scenario.worldA 2000 2001
                (lit "dac~ not connected") Scenario.browsing st' E)
      as [Hn _].
    rewrite Hn; vm_compute; reflexivity.
  - exfalso; vm_compute in E; discriminate E.
Defined.

(** X12: when no patch of the history has the name of the selected patch,
    as after [clearHistory], a regeneration that succeeds leaves the
    history as it is: the new entry is in the error history of the current
    patch only, and the stored copy is the unchanged history. *)
Theorem handleRegenerate_outside_history (fuel : nat) (w : World)
  (t1 t2 : Z) (errorMessage : jsstring) (st : App.State)
  (current : App.PdPatch) (result : GenerateResponse) (evs : list Event) :
  App.currentPatch st = Some current ->
  Forall (fun p => eqb (App.name p) (App.name current) = false)
         (App.history st) ->
  generatePdPatch_fuel fuel w (App.sent st) (App.description current)
    (Some errorMessage) 0 = Some (Resolved result, evs) ->
  exists st',
    App.handleRegenerate fuel w t1 t2 errorMessage st = Some st'
    /\ App.history st' = App.history st
    /\ App.pdPatchHistory st' = Some (App.history st)
    /\ App.currentPatch st'
       = Some (App.updatedPatchOf current errorMessage result t1 t2)
    /\ ~ In (App.updatedPatchOf current errorMessage result t1 t2)
            (App.history st').
Proof.
  intros Hc Hall Hg.
  assert (Hmap : List.map
                   (fun p =>
                      if eqb (App.name p) (App.name current)
                      then App.updatedPatchOf current errorMessage result
                             t1 t2
                      else p)
                   (App.history st) = App.history st).
  { induction Hall as [|p l Hp _ IH]; [reflexivity|].
    cbn [List.map]; now rewrite Hp, IH. }
  eexists; split.
  - unfold App.handleRegenerate; rewrite Hc.
    change (App.sent (App.setPdErrors [] (App.setIsRegenerating true st)))
      with (App.sent st).
    rewrite Hg; reflexivity.
  - cbn [App.history App.pdPatchHistory App.currentPatch
         App.setIsRegenerating App.setHistoryAndStore App.setCurrentPatch
         App.addSent App.setPdErrors].
    rewrite Hmap; repeat split.
    intros Hin.
    rewrite Forall_forall in Hall; apply Hall in Hin.
    cbn [App.name App.updatedPatchOf] in Hin.
    assert (Q : eqb (App.name current) (App.name current) = true)
      by now apply eqb_eq.
    congruence.
Qed.

(** X12 on scenario D after the history was cleared. *)
Lemma handleRegenerate_outside_history_witness :
  exists st',
    App.handleRegenerate 3 Scenario.worldA 2000 2001
      (lit "dac~ not connected") (Handlers.clearHistory Scenario.browsing)
    = Some st'
    /\ App.history st' = []
    /\ App.pdPatchHistory st' = Some [].
Proof.
  destruct (handleRegenerate_outside_history 3 Scenario.worldA 2000 2001
              (lit "dac~ not connected")
              (Handlers.clearHistory Scenario.browsing) Scenario.selected
              (responseOf (Some (Scenario.completion Scenario.bodyA)))
              (logOf (generatePdPatch_fuel 3 Scenario.worldA 3
                        Scenario.tonePrompt
                        (Some (lit "dac~ not connected")) 0)))
    as [st' (E & Hh & Hs & _)].
  - reflexivity.
  - constructor.
  - vm_compute; reflexivity.
  - exists st'; repeat split; assumption.
Defined.

(** X13: [handleViewCode] followed by a regeneration that succeeds writes
    the viewed code into the history: every patch of the history with the
    name of the selected patch then has the viewed code as its content,
    whatever content it had. *)
Theorem viewed_code_reaches_history (fuel : nat) (w : World) (t1 t2 : Z)
  (errorMessage content : jsstring) (st : App.State)
  (current : App.PdPatch) (result : GenerateResponse) (evs : list Event) :
  App.currentPatch st = Some current ->
  generatePdPatch_fuel fuel w (App.sent st) (App.description current)
    (Some errorMessage) 0 = Some (Resolved result, evs) ->
  exists st',
    App.handleRegenerate fuel w t1 t2 errorMessage
      (Handlers.handleViewCode content st) = Some st'
    /\ (forall p,
          In p (App.history st') ->
          App.name p = App.name current ->
          App.content p = content)
    /\ (forall p,
          In p (App.history st) ->
          App.name p = App.name current ->
          exists p', In p' (App.history st')
                     /\ App.name p' = App.name current).
Proof.
  intros Hc Hg.
  eexists; split.
  - unfold App.handleRegenerate, Handlers.handleViewCode.
    cbn [App.currentPatch App.setCurrentPatch].
    rewrite Hc.
    change (App.sent
              (App.setPdErrors []
                 (App.setIsRegenerating true
                    (App.setCurrentPatch
                       (Some (Handlers.withContent content current)) st))))
      with (App.sent st).
    change (App.description (Handlers.withContent content current))
      with (App.description current).
    rewrite Hg; reflexivity.
  - cbn [App.history App.setIsRegenerating App.setHistoryAndStore
         App.setCurrentPatch App.addSent App.setPdErrors].
    change (App.name (Handlers.withContent content current))
      with (App.name current).
    split.
    + intros p Hin Hn.
      apply in_map_iff in Hin as [q [Hq _]].
      destruct (eqb (App.name q) (App.name current)) eqn:E.
      * now subst p.
      * subst p; apply eqb_eq in Hn; congruence.
    + intros p Hin Hn.
      eexists; split.
      * apply in_map_iff; exists p; split; [|exact Hin].
        apply eqb_eq in Hn; rewrite Hn; reflexivity.
      * reflexivity.
Qed.

(** X13 on scenario D: the body of scenario A is viewed, and the patch of
    the history that had the body of scenario B has it afterwards. *)
Lemma viewed_code_reaches_history_witness :
  App.content Scenario.selected = Scenario.bodyB
  /\ exists st',
       App.handleRegenerate 3 Scenario.worldA 2000 2001
         (lit "dac~ not connected")
         (Handlers.handleViewCode Scenario.bodyA Scenario.browsing)
       = Some st'
       /\ List.map App.content (App.history st')
          = [Scenario.bodyA; Scenario.bodyA].
Proof.
  split; [reflexivity|].
  destruct (viewed_code_reaches_history 3 Scenario.worldA 2000 2001
              (lit "dac~ not connected") Scenario.bodyA Scenario.browsing
              Scenario.selected
              (responseOf (Some (Scenario.completion Scenario.bodyA)))
              (logOf (generatePdPatch_fuel 3 Scenario.worldA 3
                        Scenario.tonePrompt
                        (Some (lit "dac~ not connected")) 0)))
    as [st' (E & Hall & _)].
  - reflexivity.
  - vm_compute; reflexivity.
  - exists st'; split; [exact E|].
    assert (Hs : exists a b, App.history st' = [a; b]
                             /\ App.name b = App.name Scenario.selected
                             /\ a = Scenario.other).
    { vm_compute in E; injection E as <-.
      eexists; eexists; split; [reflexivity|split; reflexivity]. }
    destruct Hs as (a & b & Hh & Hb & Ha).
    rewrite Hh; cbn [List.map].
    rewrite (Hall b); [|rewrite Hh; right; now left|exact Hb].
    subst a; reflexivity.
Defined.

(* ====================================================================== *)
(** ** [handleDownload] *)
(* ====================================================================== *)

(** X14: a download right after a generation that was stored hands the
    browser one file: its only part is the patch text that
    [generatePdPatch] returned, unchanged, and its name is [patch_], the
    time of the generation and [.pd]. Without a current patch nothing is
    downloaded. *)
Theorem download_exports_generated_patch (fuel : nat) (w : World)
  (now created : Z) (st : App.State) (result : GenerateResponse)
  (evs : list Event) :
  truthy (Some (trim (App.prompt st))) = true ->
  generatePdPatch_fuel fuel w (App.sent st) (App.prompt st) None 0
  = Some (Resolved result, evs) ->
  App.everyTrue (App.audioValidation (patch result)) = true ->
  (exists st',
     App.handleGenerate fuel w now created st = Some st'
     /\ snd (Handlers.handleDownload st')
        = Some {| Handlers.blobParts := [patch result];
                  Handlers.blobType := lit "text/plain";
                  Handlers.download :=
                    lit "patch_" ++ ofZ now ++ lit ".pd" |})
  /\ (App.currentPatch st = None ->
      Handlers.handleDownload st = (st, None)).
Proof.
  intros Hp Hg Ha; split.
  - destruct (handleGenerate_resolved fuel w now created st result evs Hp Hg)
      as [st' [E Hif]].
    rewrite Ha in Hif; destruct Hif as (_ & Hc & _).
    exists st'; split; [exact E|].
    unfold Handlers.handleDownload; rewrite Hc.
    cbn [snd App.content App.name App.newPatchOf].
    now rewrite <- app_assoc.
  - intros Hn; unfold Handlers.handleDownload; now rewrite Hn.
Qed.

(** X14 on scenario A. *)
Lemma download_exports_generated_patch_witness :
  exists st',
    App.handleGenerate 3 Scenario.worldA 1700000000000 1700000000001
      Scenario.fresh = Some st'
    /\ snd (Handlers.handleDownload st')
       = Some {| Handlers.blobParts := [Scenario.bodyA];
                 Handlers.blobType := lit "text/plain";
                 Handlers.download := lit "patch_1700000000000.pd" |}.
Proof.
  destruct (download_exports_generated_patch 3 Scenario.worldA
              1700000000000 1700000000001 Scenario.fresh
              (responseOf (Some (Scenario.completion Scenario.bodyA)))
              (logOf (generatePdPatch_fuel 3 Scenario.worldA 0
                        Scenario.tonePrompt None 0)))
    as [[st' [E Hd]] _].
  - vm_compute; reflexivity.
  - vm_compute; reflexivity.
  - vm_compute; reflexivity.
  - exists st'; split; [exact E|].
    rewrite Hd; vm_compute; reflexivity.
Defined.

(* ====================================================================== *)
(** ** [trim] and the report of the returned patch *)
(* ====================================================================== *)

Lemma trimStart_split (s : jsstring) :
  exists pre,
    s = pre ++ trimStart s /\ Forall (fun c => isWhiteSpace c = true) pre.
Proof.
  induction s as [|c s [pre [E W]]].
  - exists []; split; [reflexivity|constructor].
  - cbn [trimStart]; destruct (isWhiteSpace c) eqn:Hc.
    + exists (c :: pre); split; [cbn; now rewrite <- E|now constructor].
    + exists []; split; [reflexivity|constructor].
Qed.

Lemma trimStart_head (s : jsstring) (c : char16) (t : jsstring) :
  trimStart s = c :: t -> solid c.
Proof.
  induction s as [|d s IH]; [discriminate|].
  cbn [trimStart]; destruct (isWhiteSpace d) eqn:Hd; [exact IH|].
  intros Q; injection Q as <- _; exact Hd.
Qed.

Lemma trimStart_solid (c : char16) (t : jsstring) :
  solid c -> trimStart (c :: t) = c :: t.
Proof. intros H; cbn [trimStart]; now rewrite H. Qed.

(** A text is its trimmed text between two runs of white space, and the
    trimmed text, when it is not empty, begins and ends with a code unit
    that is not white space. *)
Lemma trim_split (s : jsstring) :
  exists pre post,
    s = pre ++ trim s ++ post
    /\ Forall (fun c => isWhiteSpace c = true) pre
    /\ Forall (fun c => isWhiteSpace c = true) post
    /\ (forall c t, trim s = c :: t -> solid c /\ solid (last t c)).
Proof.
  destruct (trimStart_split s) as [pre [E1 W1]].
  destruct (trimStart_split (rev (trimStart s))) as [p2 [E2 W2]].
  exists pre, (rev p2); unfold trim.
  assert (Ea : trimStart s
               = rev (trimStart (rev (trimStart s))) ++ rev p2).
  { rewrite <- rev_app_distr, <- E2; symmetry; apply rev_involutive. }
  repeat split.
  - now rewrite <- Ea.
  - exact W1.
  - now apply Forall_rev.
  - destruct (trimStart s) as [|a ta] eqn:Ha.
    { cbn in H; discriminate H. }
    rewrite H in Ea; cbn [app] in Ea; injection Ea as -> _.
    eapply trimStart_head; exact Ha.
  - destruct (trimStart (rev (trimStart s))) as [|b tb] eqn:Hb.
    { cbn in H; discriminate H. }
    apply trimStart_head in Hb.
    assert (Hl : last (c :: t) c = b).
    { rewrite <- H; cbn [rev]; apply last_last. }
    destruct t as [|d t]; [cbn in Hl; now subst|].
    change (last (d :: t) c) with (last (c :: d :: t) c).
    now rewrite Hl.
Qed.

Lemma trim_idempotent (s : jsstring) : trim (trim s) = trim s.
Proof.
  destruct (trim_split s) as (pre & post & _ & _ & _ & Hends).
  destruct (trim s) as [|c t] eqn:E; [reflexivity|].
  destruct (Hends c t eq_refl) as [Hc Hl].
  unfold trim; rewrite (trimStart_solid c t Hc).
  assert (Hr : trimStart (rev (c :: t)) = rev (c :: t)).
  { destruct (rev (c :: t)) as [|b tb] eqn:Er.
    - reflexivity.
    - apply trimStart_solid.
      assert (Hb : last (c :: t) c = b).
      { rewrite <- (rev_involutive (c :: t)), Er; cbn [rev].
        apply last_last. }
      destruct t as [|d t]; [cbn in Hb; now subst|].
      change (last (c :: d :: t) c) with (last (d :: t) c) in Hb.
      now rewrite <- Hb. }
  now rewrite Hr, rev_involutive.
Qed.

(** The segments of a result. *)
Lemma gen_resolved_is_response (w : World) (prompt : jsstring) :
  forall fuel sent fb rc r evs,
    generatePdPatch_fuel fuel w sent prompt fb rc = Some (Resolved r, evs) ->
    exists text,
      r = responseOf text
      /\ (rc + List.length (requests evs) <= 2 ->
          someFalse (validation (patchOf (orEmpty text))) = false).
Proof.
  induction fuel as [|fuel IH]; intros sent fb rc r evs H; [discriminate|].
  apply gen_inv in H
    as [K1 Ho ->|K1 K2 Ho ->|e0 Hk Hf Ho ->|text Hk Hc Hr Ho ->
       |text evs' Hk Hc Hr Hn ->]; try discriminate.
  - injection Ho as ->; exists text; split; [reflexivity|].
    intros Hle; cbn in Hle.
    assert (Hlt : (rc <? 2) = true) by (apply Nat.ltb_lt; lia).
    now rewrite Hlt in Hr.
  - destruct (IH _ _ _ _ _ Hn) as [text' [-> Hv]].
    exists text'; split; [reflexivity|].
    rewrite requests_app, length_app; intros Hle.
    change (List.length (requests (seenOf prompt rc fb text))) with 1 in Hle.
    apply Hv; lia.
Qed.

(** X15: the two segments that [generatePdPatch] returns are trimmed:
    trimming them again changes nothing, and a returned patch text that is
    not empty begins and ends with a code unit that is not white space. *)
Theorem returned_segments_are_trimmed (w : World) (prompt : jsstring)
  (fuel sent : nat) (errorFeedback : option jsstring) (retryCount : nat)
  (r : GenerateResponse) :
  outcomeOf (generatePdPatch_fuel fuel w sent prompt errorFeedback retryCount)
  = Some (Resolved r) ->
  trim (patch r) = patch r
  /\ trim (explanation r) = explanation r
  /\ (forall c rest,
        patch r = c :: rest -> solid c /\ solid (last rest c)).
Proof.
  destruct (generatePdPatch_fuel fuel w sent prompt errorFeedback retryCount)
    as [[out evs]|] eqn:E; [|discriminate].
  cbn [outcomeOf option_map fst]; intros Q; injection Q as ->.
  destruct (gen_resolved_is_response w prompt _ _ _ _ _ _ E) as [text [-> _]].
  cbn [patch explanation responseOf].
  split; [apply trim_idempotent|split; [apply trim_idempotent|]].
  destruct (trim_split (patchOf (orEmpty text))) as (_ & _ & _ & _ & _ & H).
  exact H.
Qed.

(** X15 on scenario A, whose answer has line feeds around the body. *)
Lemma returned_segments_are_trimmed_witness :
  trim (patchOf (Scenario.completion Scenario.bodyA)) = Scenario.bodyA
  /\ trim Scenario.bodyA = Scenario.bodyA.
Proof.
  split; [vm_compute; reflexivity|].
  apply (returned_segments_are_trimmed Scenario.worldA Scenario.tonePrompt
           3 0 None 0
           {| patch := Scenario.bodyA;
              explanation :=
                lit "A sine oscillator through a volume stage." |}).
  vm_compute; reflexivity.
Defined.

Lemma white_differs (w h : char16) :
  isWhiteSpace w = true -> solid h -> N.eqb w h = false.
Proof.
  intros Hw Hh; destruct (N.eqb w h) eqn:E; [|reflexivity].
  apply N.eqb_eq in E; subst; unfold solid in Hh; congruence.
Qed.

Lemma startsWith_white (post n : jsstring) :
  Forall (fun c => isWhiteSpace c = true) post ->
  startsWith post n = true ->
  Forall (fun c => isWhiteSpace c = true) n.
Proof.
  intros W H; apply startsWith_inv in H as [rest ->].
  apply Forall_app in W; tauto.
Qed.

Lemma last_white (n : jsstring) (x : char16) :
  n <> [] ->
  Forall (fun c => isWhiteSpace c = true) n ->
  isWhiteSpace (last n x) = true.
Proof.
  intros Hne W.
  destruct (exists_last Hne) as [n' [a ->]].
  rewrite last_last.
  apply Forall_app in W as [_ W]; now inversion W.
Qed.

(** White space before a text does not add an occurrence of a needle that
    begins with another code unit. *)
Lemma includes_pad_left (pre m n : jsstring) (h : char16) (t : jsstring) :
  Forall (fun c => isWhiteSpace c = true) pre ->
  n = h :: t -> solid h ->
  includes (pre ++ m) n = includes m n.
Proof.
  intros W -> Hh; induction W as [|c pre Hc _ IH]; [reflexivity|].
  cbn [app includes startsWith].
  now rewrite (white_differs c h Hc Hh), IH.
Qed.

(** White space after a text does not complete a needle that ends with
    another code unit. *)
Lemma startsWith_pad_right (post : jsstring) (x : char16) :
  Forall (fun c => isWhiteSpace c = true) post ->
  forall n m,
    n <> [] -> solid (last n x) ->
    startsWith (m ++ post) n = startsWith m n.
Proof.
  intros W; induction n as [|h n IH]; intros m Hne Hl; [contradiction|].
  destruct m as [|c m].
  - cbn [app]; destruct (startsWith post (h :: n)) eqn:E;
      [|now destruct post].
    exfalso.
    pose proof (startsWith_white post (h :: n) W E) as Wn.
    pose proof (last_white (h :: n) x Hne Wn) as Q.
    unfold solid in Hl; congruence.
  - cbn [app startsWith].
    destruct n as [|h' n]; [reflexivity|].
    rewrite (IH m); [reflexivity|discriminate|exact Hl].
Qed.

Lemma includes_pad_right (post : jsstring) (x : char16) (n : jsstring) :
  Forall (fun c => isWhiteSpace c = true) post ->
  n <> [] -> solid (last n x) ->
  forall m, includes (m ++ post) n = includes m n.
Proof.
  intros W Hne Hl.
  assert (Hp : forall p,
             Forall (fun c => isWhiteSpace c = true) p ->
             includes p n = false).
  { induction p as [|c p IHp]; intros Wp.
    - destruct n; [contradiction|reflexivity].
    - cbn [includes].
      rewrite IHp by (now inversion Wp).
      destruct (startsWith (c :: p) n) eqn:E; [|reflexivity].
      exfalso.
      pose proof (startsWith_white _ n Wp E) as Wn.
      pose proof (last_white n x Hne Wn) as Q.
      unfold solid in Hl; congruence. }
  induction m as [|c m IH].
  - cbn [app]; rewrite (Hp post W).
    destruct n; [contradiction|reflexivity].
  - change ((c :: m) ++ post) with (c :: (m ++ post)).
    cbn [includes]; rewrite IH.
    change (c :: (m ++ post)) with ((c :: m) ++ post).
    now rewrite (startsWith_pad_right post x W n (c :: m) Hne Hl).
Qed.

(** Trimming a text neither adds nor removes an occurrence of a needle
    that begins and ends with a code unit that is not white space. *)
Lemma includes_trim (s n : jsstring) (h : char16) (t : jsstring) :
  n = h :: t -> solid h -> solid (last n h) ->
  includes (trim s) n = includes s n.
Proof.
  intros En Hh Hl.
  destruct (trim_split s) as (pre & post & E & W1 & W2 & _).
  rewrite E at 2.
  rewrite (includes_pad_left pre _ n h t W1 En Hh).
  rewrite (includes_pad_right post h n W2); [reflexivity| |exact Hl].
  subst n; discriminate.
Qed.

Lemma white_not_digit (c : char16) :
  isWhiteSpace c = true -> isDigit c = false.
Proof.
  unfold isWhiteSpace, isDigit; intros H.
  destruct ((48 <=? c)%N) eqn:A; [|reflexivity].
  destruct ((c <=? 57)%N) eqn:B; [|reflexivity].
  exfalso; apply N.leb_le in A, B.
  repeat (apply orb_prop in H as [H|H]);
    try (apply andb_prop in H as [H1 H2]; apply N.leb_le in H1, H2; lia);
    apply N.eqb_eq in H; lia.
Qed.

Lemma takeDigits_white (post : jsstring) :
  Forall (fun c => isWhiteSpace c = true) post -> takeDigits post = 0.
Proof.
  intros W; destruct W as [|c post Hc _]; [reflexivity|].
  cbn [takeDigits]; now rewrite (white_not_digit c Hc).
Qed.

Lemma takeDigits_pad (post : jsstring) :
  Forall (fun c => isWhiteSpace c = true) post ->
  forall r, takeDigits (r ++ post) = takeDigits r.
Proof.
  intros W; induction r as [|c r IH]; [now apply takeDigits_white|].
  cbn [app takeDigits]; now rewrite IH.
Qed.

Lemma takeDigits_le (r : jsstring) : takeDigits r <= List.length r.
Proof.
  induction r as [|c r IH]; [reflexivity|].
  cbn [takeDigits List.length]; destruct (isDigit c); lia.
Qed.

Lemma startsWith_long (x post n : jsstring) :
  List.length n <= List.length x ->
  startsWith (x ++ post) n = startsWith x n.
Proof.
  revert x; induction n as [|h n IH]; intros x Hle; [reflexivity|].
  destruct x as [|c x]; [cbn in Hle; lia|].
  cbn [app startsWith]; rewrite IH; [reflexivity|cbn in Hle; lia].
Qed.

Lemma Forall_skipn_white (n : nat) (l : jsstring) :
  Forall (fun c => isWhiteSpace c = true) l ->
  Forall (fun c => isWhiteSpace c = true) (skipn n l).
Proof.
  revert l; induction n as [|n IH]; intros l W; [exact W|].
  destruct W as [|c l _ W]; [constructor|now apply IH].
Qed.

Lemma skipn_prefix (a b : jsstring) : skipn (List.length a) (a ++ b) = b.
Proof. induction a as [|c a IH]; [reflexivity|exact IH]. Qed.

(** White space after a text does not complete or extend a match of the
    numbered connection pattern. *)
Lemma reConnectNums_pad (post : jsstring) :
  Forall (fun c => isWhiteSpace c = true) post ->
  forall x, reConnectNums (x ++ post) = reConnectNums x.
Proof.
  intros W x; unfold reConnectNums; cbv zeta.
  destruct (startsWith x (lit "#X connect ")) eqn:Sx.
  - destruct (startsWith_inv _ _ Sx) as [r ->].
    rewrite <- app_assoc, startsWith_app.
    rewrite !skipn_prefix.
    rewrite (takeDigits_pad post W r).
    destruct (takeDigits r) as [|d] eqn:D; [reflexivity|].
    pose proof (takeDigits_le r) as Hle; rewrite D in Hle.
    rewrite skipn_app.
    replace (S d - List.length r) with 0 by lia.
    change (skipn 0 post) with post.
    destruct (skipn (S d) r) as [|c r2]; cbn [app].
    + destruct W as [|c post Hc W]; [reflexivity|].
      destruct ((c =? 32)%N); [|reflexivity].
      now rewrite (takeDigits_white post W).
    + now rewrite (takeDigits_pad post W r2).
  - destruct (startsWith (x ++ post) (lit "#X connect ")) eqn:Sp;
      [|reflexivity].
    destruct (Nat.le_gt_cases (List.length (lit "#X connect "))
                (List.length x)) as [Hle|Hgt].
    { rewrite (startsWith_long x post _ Hle) in Sp; congruence. }
    rewrite skipn_app.
    replace (skipn (List.length (lit "#X connect ")) x) with (@nil char16)
      by (symmetry; apply skipn_all2; lia).
    cbn [app].
    rewrite takeDigits_white; [reflexivity|].
    now apply Forall_skipn_white.
Qed.

Lemma reConnectNums_white (c : char16) (s : jsstring) :
  isWhiteSpace c = true -> reConnectNums (c :: s) = None.
Proof.
  intros Hc; unfold reConnectNums.
  assert (E : startsWith (c :: s) (lit "#X connect ") = false).
  { change (lit "#X connect ") with (35%N :: lit "X connect ").
    cbn [startsWith].
    rewrite (white_differs c 35%N Hc); reflexivity. }
  now rewrite E.
Qed.

Lemma countGo_white (post : jsstring) :
  Forall (fun c => isWhiteSpace c = true) post ->
  forall k, countGo reConnectNums k post = 0.
Proof.
  induction 1 as [|c post Hc _ IH]; intros k; [reflexivity|].
  cbn [countGo]; destruct k as [|k]; [|apply IH].
  rewrite (reConnectNums_white c post Hc); apply IH.
Qed.

Lemma countGo_pad_right (post : jsstring) :
  Forall (fun c => isWhiteSpace c = true) post ->
  forall m k,
    countGo reConnectNums k (m ++ post) = countGo reConnectNums k m.
Proof.
  intros W; induction m as [|c m IH]; intros k.
  - cbn [app]; rewrite (countGo_white post W); now destruct k.
  - change ((c :: m) ++ post) with (c :: (m ++ post)).
    cbn [countGo]; destruct k as [|k]; [|apply IH].
    change (c :: (m ++ post)) with ((c :: m) ++ post).
    rewrite (reConnectNums_pad post W (c :: m)).
    destruct (reConnectNums (c :: m)) as [[|j]|]; now rewrite IH.
Qed.

Lemma countGo_pad_left (pre : jsstring) :
  Forall (fun c => isWhiteSpace c = true) pre ->
  forall m,
    countGo reConnectNums 0 (pre ++ m) = countGo reConnectNums 0 m.
Proof.
  induction 1 as [|c pre Hc _ IH]; intros m; [reflexivity|].
  cbn [app countGo].
  now rewrite (reConnectNums_white c (pre ++ m) Hc).
Qed.

Lemma countMatches_trim (s : jsstring) :
  countMatches reConnectNums (trim s) = countMatches reConnectNums s.
Proof.
  destruct (trim_split s) as (pre & post & E & W1 & W2 & _).
  unfold countMatches; rewrite E at 2.
  now rewrite (countGo_pad_left pre W1), (countGo_pad_right post W2).
Qed.

Ltac trim_needles :=
  repeat match goal with
         | |- context [includes (trim ?s) (lit ?n)] =>
             let v := eval cbv in (lit n) in
             match v with
             | ?h :: ?t =>
                 rewrite (includes_trim s (lit n) h t eq_refl eq_refl eq_refl)
             end
         end.

Lemma validation_trim (patchText : jsstring) :
  validation (trim patchText) = validation patchText.
Proof.
  unfold validation.
  rewrite countMatches_trim.
  trim_needles.
  reflexivity.
Qed.

Ltac pad_needles pre post W1 W2 :=
  repeat match goal with
         | |- context [includes (pre ++ ?m ++ post) (lit ?n)] =>
             let v := eval cbv in (lit n) in
             match v with
             | ?h :: ?t =>
                 rewrite (includes_pad_left pre (m ++ post) (lit n) h t W1
                            eq_refl eq_refl),
                   (includes_pad_right post h (lit n) W2
                      ltac:(discriminate) eq_refl m)
             end
         end.

(** X16: white space around a patch text does not change its report: each
    needle of the eleven predicates begins and ends with a code unit that
    is not white space, and so does every numbered connection. In
    particular the report of a trimmed text, as [generatePdPatch] returns
    it, is the report of the text before trimming. *)
Theorem report_ignores_surrounding_space (pre patchText post : jsstring) :
  Forall (fun c => isWhiteSpace c = true) pre ->
  Forall (fun c => isWhiteSpace c = true) post ->
  validation (pre ++ patchText ++ post) = validation patchText
  /\ validation (trim patchText) = validation patchText.
Proof.
  intros W1 W2; split; [|apply validation_trim].
  unfold validation, countMatches.
  rewrite (countGo_pad_left pre W1), (countGo_pad_right post W2).
  pad_needles pre post W1 W2.
  reflexivity.
Qed.

(** X16 on the body of scenario B between line feeds, as the splitter
    leaves it. *)
Lemma report_ignores_surrounding_space_witness :
  validation ([LF] ++ Scenario.bodyB ++ [LF; LF])
  = validation Scenario.bodyB
  /\ validation (trim Scenario.bodyB) = validation Scenario.bodyB.
Proof.
  apply (report_ignores_surrounding_space [LF] Scenario.bodyB [LF; LF]);
    repeat constructor.
Defined.

(* ====================================================================== *)
(** ** The report of [generatePdPatch] and the check of [handleGenerate] *)
(* ====================================================================== *)

Lemma startsWith_connect_tail (c : char16) (s : jsstring) :
  startsWith (c :: s) (lit "#X connect") = true ->
  c = 35%N
  /\ Forall (fun d => d <> 35%N) (firstn 9 s).
Proof.
  intros H; apply startsWith_inv in H as [rest E].
  change (lit "#X connect") with (35%N :: lit "X connect") in E.
  cbn [app] in E; injection E as -> ->.
  split; [reflexivity|].
  cbn [firstn].
  repeat (constructor; [discriminate|]); constructor.
Qed.

Lemma reConnect_spec (s : jsstring) :
  reConnect s
  = if startsWith s (lit "#X connect") then Some 10 else None.
Proof. reflexivity. Qed.

(** The plain connection pattern matches at least as often as the numbered
    one. [k2] code units of a plain match are still to be passed over, and
    none of them is a number sign. *)
Lemma countGo_numbered_le_plain (s : jsstring) :
  forall k1 k2,
    Forall (fun d => d <> 35%N) (firstn k2 s) ->
    countGo reConnectNums k1 s <= countGo reConnect k2 s.
Proof.
  induction s as [|c s IH]; intros k1 k2 Hh; [reflexivity|].
  cbn [countGo].
  destruct k2 as [|k2].
  - rewrite reConnect_spec.
    destruct (startsWith (c :: s) (lit "#X connect")) eqn:P.
    + destruct (startsWith_connect_tail c s P) as [_ H9].
      destruct k1 as [|k1].
      * destruct (reConnectNums (c :: s)) as [[|j]|].
        -- specialize (IH 0 9 H9); lia.
        -- specialize (IH j 9 H9); lia.
        -- specialize (IH 0 9 H9); lia.
      * specialize (IH k1 9 H9); lia.
    + destruct k1 as [|k1].
      * destruct (reConnectNums (c :: s)) as [[|j]|] eqn:Q.
        -- apply (IH 0 0); constructor.
        -- apply reConnectNums_starts in Q; congruence.
        -- apply (IH 0 0); constructor.
      * apply (IH k1 0); constructor.
  - cbn [firstn] in Hh; inversion Hh as [|? ? Hc Ht]; subst.
    destruct k1 as [|k1]; [|now apply IH].
    assert (Q : reConnectNums (c :: s) = None).
    { destruct (reConnectNums (c :: s)) as [n|] eqn:Q; [|reflexivity].
      apply reConnectNums_starts in Q.
      apply startsWith_connect_tail in Q as [Q _]; contradiction. }
    rewrite Q; now apply IH.
Qed.

Lemma audio_check_of_validated (patchText : jsstring) :
  someFalse (validation patchText) = false ->
  App.everyTrue (App.audioValidation patchText) = true.
Proof.
  unfold someFalse, validation, App.everyTrue, App.audioValidation.
  cbn [List.map snd existsb forallb].
  intros H.
  repeat (apply orb_false_elim in H as [?H H]).
  repeat match goal with
         | Q : negb _ = false |- _ => apply negb_false_iff in Q
         end.
  repeat match goal with
         | Q : _ && _ = true |- _ => apply andb_prop in Q as [? ?]
         end.
  assert (C : (6 <=? countMatches reConnect patchText) = true).
  { match goal with
    | Q : (6 <=? countMatches reConnectNums patchText) = true |- _ =>
        apply Nat.leb_le in Q; apply Nat.leb_le
    end.
    pose proof (countGo_numbered_le_plain patchText 0 0 (Forall_nil _)).
    unfold countMatches in *; lia. }
  rewrite C.
  repeat match goal with
         | Q : ?b = true |- context [?b] => rewrite Q
         end.
  reflexivity.
Qed.

(** X17: a patch text that passes the eleven predicates of
    [generatePdPatch] passes the audio check of [handleGenerate]; the plain
    connection pattern of the check matches at least as often as the
    numbered one of the predicates. *)
Theorem validated_patch_passes_audio_check (patchText : jsstring) :
  someFalse (validation patchText) = false ->
  App.everyTrue (App.audioValidation patchText) = true
  /\ countMatches reConnectNums patchText
     <= countMatches reConnect patchText.
Proof.
  intros H; split; [now apply audio_check_of_validated|].
  apply (countGo_numbered_le_plain patchText 0 0); constructor.
Qed.

(** X17 on the body of scenario A. *)
Lemma validated_patch_passes_audio_check_witness :
  someFalse (validation Scenario.bodyA) = false
  /\ App.everyTrue (App.audioValidation Scenario.bodyA) = true.
Proof.
  assert (H : someFalse (validation Scenario.bodyA) = false)
    by (vm_compute; reflexivity).
  split; [exact H|].
  exact (proj1 (validated_patch_passes_audio_check Scenario.bodyA H)).
Defined.

(** X18: a top-level call that returns a result after one or two requests
    returns a patch text that passes all eleven predicates; only the result
    of a third request can be returned with a predicate that fails. *)
Theorem early_result_is_validated (w : World) (prompt : jsstring)
  (fuel sent : nat) (errorFeedback : option jsstring)
  (r : GenerateResponse) :
  outcomeOf (generatePdPatch_fuel fuel w sent prompt errorFeedback 0)
  = Some (Resolved r) ->
  List.length
    (requests (logOf (generatePdPatch_fuel fuel w sent prompt errorFeedback
                        0))) <= 2 ->
  someFalse (validation (patch r)) = false.
Proof.
  destruct (generatePdPatch_fuel fuel w sent prompt errorFeedback 0)
    as [[out evs]|] eqn:E; [|discriminate].
  cbn [outcomeOf option_map fst logOf]; intros Q Hle; injection Q as ->.
  destruct (gen_resolved_is_response w prompt _ _ _ _ _ _ E) as [text [-> Hv]].
  cbn [patch responseOf].
  rewrite validation_trim.
  apply Hv; lia.
Qed.

(** X18 on scenario A, where the first answer is returned. *)
Lemma early_result_is_validated_witness :
  List.length
    (requests (logOf (generatePdPatch_fuel 3 Scenario.worldA 0
                        Scenario.tonePrompt None 0))) = 1
  /\ someFalse (validation Scenario.bodyA) = false.
Proof.
  split; [vm_compute; reflexivity|].
  apply (early_result_is_validated Scenario.worldA Scenario.tonePrompt 3 0
           None
           {| patch := Scenario.bodyA;
              explanation :=
                lit "A sine oscillator through a volume stage." |}).
  - vm_compute; reflexivity.
  - vm_compute; lia.
Defined.

(** X19: when the generation returns after one or two requests,
    [handleGenerate] always stores the patch: it becomes the current patch
    and the first patch of the history and of its stored copy, it passes
    all eleven predicates, and the success message is shown. *)
Theorem validated_generation_is_stored (fuel : nat) (w : World)
  (now created : Z) (st : App.State) (result : GenerateResponse)
  (evs : list Event) :
  truthy (Some (trim (App.prompt st))) = true ->
  generatePdPatch_fuel fuel w (App.sent st) (App.prompt st) None 0
  = Some (Resolved result, evs) ->
  List.length (requests evs) <= 2 ->
  exists st',
    App.handleGenerate fuel w now created st = Some st'
    /\ App.history st'
       = App.newPatchOf (App.prompt st) result now created :: App.history st
    /\ App.pdPatchHistory st' = Some (App.history st')
    /\ App.currentPatch st'
       = Some (App.newPatchOf (App.prompt st) result now created)
    /\ someFalse
         (validation
            (App.content (App.newPatchOf (App.prompt st) result now created)))
       = false
    /\ App.toasts st'
       = App.toasts st
         ++ [App.toast_success (lit "Patch generated successfully!")]
    /\ App.isGenerating st' = false.
Proof.
  intros Hp Hg Hle.
  assert (Hv : someFalse (validation (patch result)) = false).
  { destruct (gen_resolved_is_response w (App.prompt st) _ _ _ _ _ _ Hg)
      as [text [-> Hv]].
    cbn [patch responseOf]; rewrite validation_trim.
    apply Hv; lia. }
  pose proof (audio_check_of_validated (patch result) Hv) as Ha.
  eexists; split.
  - unfold App.handleGenerate; rewrite Hp; cbn [negb].
    change (App.sent (App.setPdErrors [] (App.setIsGenerating true st)))
      with (App.sent st).
    change (App.prompt (App.setPdErrors [] (App.setIsGenerating true st)))
      with (App.prompt st).
    rewrite Hg.
    rewrite Ha; cbn [negb]; reflexivity.
  - repeat split; exact Hv.
Qed.

(** X19 on scenario A. *)
Lemma validated_generation_is_stored_witness :
  exists st',
    App.handleGenerate 3 Scenario.worldA 1700000000000 1700000000001
      Scenario.fresh = Some st'
    /\ List.map App.content (App.history st') = [Scenario.bodyA]
    /\ App.toasts st'
       = [App.toast_success (lit "Patch generated successfully!")].
Proof.
  destruct (validated_generation_is_stored 3 Scenario.worldA 1700000000000
              1700000000001 Scenario.fresh
              (responseOf (Some (Scenario.completion Scenario.bodyA)))
              (logOf (generatePdPatch_fuel 3 Scenario.worldA 0
                        Scenario.tonePrompt None 0)))
    as [st' (E & Hh & _ & _ & _ & Ht & _)].
  - vm_compute; reflexivity.
  - vm_compute; reflexivity.
  - vm_compute; lia.
  - exists st'; split; [exact E|]; split.
    + rewrite Hh; vm_compute; reflexivity.
    + exact Ht.
Defined.

(** X20: after a generation that was stored, a search for the prompt lists
    the new patch first, followed by what the search listed before. *)
Theorem search_lists_new_patch_first (toLowerCase : jsstring -> jsstring)
  (fuel : nat) (w : World) (now created : Z) (st : App.State)
  (result : GenerateResponse) (evs : list Event) :
  truthy (Some (trim (App.prompt st))) = true ->
  generatePdPatch_fuel fuel w (App.sent st) (App.prompt st) None 0
  = Some (Resolved result, evs) ->
  App.everyTrue (App.audioValidation (patch result)) = true ->
  exists st',
    App.handleGenerate fuel w now created st = Some st'
    /\ Handlers.filteredHistory toLowerCase (App.history st') (App.prompt st)
       = App.newPatchOf (App.prompt st) result now created
         :: Handlers.filteredHistory toLowerCase (App.history st)
              (App.prompt st).
Proof.
  intros Hp Hg Ha.
  destruct (handleGenerate_resolved fuel w now created st result evs Hp Hg)
    as [st' [E Hif]].
  rewrite Ha in Hif; destruct Hif as (Hh & _).
  exists st'; split; [exact E|].
  rewrite Hh; unfold Handlers.filteredHistory.
  assert (Hq : truthy (Some (App.prompt st)) = true).
  { destruct (App.prompt st); [discriminate Hp|reflexivity]. }
  rewrite Hq; cbn [negb filter].
  change (App.description (App.newPatchOf (App.prompt st) result now created))
    with (App.prompt st).
  now rewrite includes_self.
Qed.

(** X20 on scenario A, searched in lower case. *)
Lemma search_lists_new_patch_first_witness :
  exists st',
    App.handleGenerate 3 Scenario.worldA 1700000000000 1700000000001
      Scenario.fresh = Some st'
    /\ List.map App.name
         (Handlers.filteredHistory Sample.asciiLower (App.history st')
            Scenario.tonePrompt)
       = [lit "patch_1700000000000"].
Proof.
  destruct (search_lists_new_patch_first Sample.asciiLower 3 Scenario.worldA
              1700000000000 1700000000001 Scenario.fresh
              (responseOf (Some (Scenario.completion Scenario.bodyA)))
              (logOf (generatePdPatch_fuel 3 Scenario.worldA 0
                        Scenario.tonePrompt None 0)))
    as [st' (E & Hf)].
  - vm_compute; reflexivity.
  - vm_compute; reflexivity.
  - vm_compute; reflexivity.
  - exists st'; split; [exact E|].
    change (App.prompt Scenario.fresh) with Scenario.tonePrompt in Hf.
    rewrite Hf; vm_compute; reflexivity.
Defined.

(* ====================================================================== *)
(** ** The splitter on an answer in the requested format *)
(* ====================================================================== *)

(** A marker begins with three dashes and a letter. *)
Lemma reMarkers_head (s : jsstring) (n : nat) :
  reMarkers s = Some n ->
  exists c t,
    s = 45%N :: 45%N :: 45%N :: c :: t /\ (c = 80%N \/ c = 69%N).
Proof.
  unfold reMarkers; cbn [firstLiteral].
  destruct (startsWith s (lit "---PATCH---")) eqn:P.
  - intros _; apply startsWith_inv in P as [rest ->].
    exists 80%N, (lit "ATCH---" ++ rest); split; [reflexivity|now left].
  - destruct (startsWith s (lit "---EXPLANATION---")) eqn:E; [|discriminate].
    intros _; apply startsWith_inv in E as [rest ->].
    exists 69%N, (lit "XPLANATION---" ++ rest); split; [reflexivity|now right].
Qed.

Lemma includes_dashes (t : jsstring) :
  includes (45%N :: 45%N :: 45%N :: t) (lit "---") = true.
Proof. reflexivity. Qed.

(** No marker begins inside a text without three dashes in a row, even
    when a marker follows the text. *)
Lemma reMarkers_before_marker (a m rest : jsstring) :
  a <> [] ->
  includes a (lit "---") = false ->
  reMarkers (a ++ 45%N :: 45%N :: 45%N :: m ++ rest) = None.
Proof.
  intros Hne Ha.
  destruct (reMarkers (a ++ 45%N :: 45%N :: 45%N :: m ++ rest)) as [n|] eqn:Q;
    [|reflexivity].
  exfalso.
  apply reMarkers_head in Q as (c & t & E & Hc).
  destruct a as [|c1 [|c2 [|c3 [|c4 a]]]]; [contradiction| | | |];
    cbn [app] in E; injection E; intros; subst;
    destruct Hc; discriminate.
Qed.

Lemma reMarkers_without_dashes (a : jsstring) :
  includes a (lit "---") = false -> reMarkers a = None.
Proof.
  intros Ha; destruct (reMarkers a) as [n|] eqn:Q; [|reflexivity].
  apply reMarkers_head in Q as (c & t & -> & _).
  rewrite includes_dashes in Ha; discriminate.
Qed.

Lemma countGo_without_dashes (a : jsstring) :
  includes a (lit "---") = false -> countGo reMarkers 0 a = 0.
Proof.
  induction a as [|c a IH]; intros Ha; [reflexivity|].
  cbn [countGo]; rewrite (reMarkers_without_dashes _ Ha).
  apply IH; eapply includes_false_later; exact Ha.
Qed.

(** Passing over the rest of a match. *)
Lemma splitGo_skip (re : matcher) (x rest cur : jsstring) :
  splitGo re (List.length x) cur (x ++ rest) = splitGo re 0 cur rest.
Proof.
  induction x as [|c x IH]; [now destruct rest|exact IH].
Qed.

(** The split runs up to the first marker and goes on behind it. *)
Lemma splitGo_to_marker (a m rest : jsstring) :
  includes a (lit "---") = false ->
  reMarkers (45%N :: 45%N :: 45%N :: m ++ rest)
  = Some (List.length (45%N :: 45%N :: 45%N :: m)) ->
  forall cur,
    splitGo reMarkers 0 cur (a ++ 45%N :: 45%N :: 45%N :: m ++ rest)
    = (rev cur ++ a) :: splitGo reMarkers 0 [] rest.
Proof.
  intros Ha Hm; induction a as [|c a IH]; intros cur.
  - cbn [app splitGo]; rewrite Hm; cbn [List.length].
    rewrite app_nil_r; f_equal.
    exact (splitGo_skip reMarkers (45%N :: 45%N :: m) rest []).
  - change ((c :: a) ++ 45%N :: 45%N :: 45%N :: m ++ rest)
      with (c :: (a ++ 45%N :: 45%N :: 45%N :: m ++ rest)).
    cbn [splitGo].
    change (c :: (a ++ 45%N :: 45%N :: 45%N :: m ++ rest))
      with ((c :: a) ++ 45%N :: 45%N :: 45%N :: m ++ rest).
    rewrite (reMarkers_before_marker (c :: a) m rest); [|discriminate|exact Ha].
    rewrite IH by (eapply includes_false_later; exact Ha).
    cbn [rev]; now rewrite <- app_assoc.
Qed.

(** X21: on an answer made of a preamble, the patch marker, a body, the
    explanation marker and an explanation, none of the three texts having
    three dashes in a row, the splitter returns the body with its fences
    removed as the patch text and the explanation as it is. *)
Theorem splitter_on_requested_format (pre body expl : jsstring) :
  includes pre (lit "---") = false ->
  includes body (lit "---") = false ->
  includes expl (lit "---") = false ->
  patchOf (pre ++ lit "---PATCH---" ++ body ++ lit "---EXPLANATION---"
           ++ expl)
  = removeAll reFences body
  /\ explanationOf (pre ++ lit "---PATCH---" ++ body
                    ++ lit "---EXPLANATION---" ++ expl)
     = expl.
Proof.
  intros Hp Hb He.
  assert (Hs : split reMarkers
                 (pre ++ lit "---PATCH---" ++ body
                  ++ lit "---EXPLANATION---" ++ expl)
               = [pre; body; expl]).
  { unfold split.
    change (lit "---PATCH---")
      with (45%N :: 45%N :: 45%N :: lit "PATCH---").
    change (lit "---EXPLANATION---")
      with (45%N :: 45%N :: 45%N :: lit "EXPLANATION---").
    cbn [app].
    rewrite (splitGo_to_marker pre (lit "PATCH---") _ Hp).
    2:{ change (45%N :: 45%N :: 45%N :: lit "PATCH---"
                ++ body ++ 45%N :: 45%N :: 45%N :: lit "EXPLANATION---"
                ++ expl)
          with (lit "---PATCH---"
                ++ body ++ 45%N :: 45%N :: 45%N :: lit "EXPLANATION---"
                ++ expl).
        unfold reMarkers; cbn [firstLiteral].
        now rewrite startsWith_app. }
    rewrite (splitGo_to_marker body (lit "EXPLANATION---") _ Hb).
    2:{ change (45%N :: 45%N :: 45%N :: lit "EXPLANATION---" ++ expl)
          with (lit "---EXPLANATION---" ++ expl).
        unfold reMarkers; cbn [firstLiteral].
        rewrite startsWith_app.
        now change (startsWith (lit "---EXPLANATION---" ++ expl)
                      (lit "---PATCH---")) with false. }
    rewrite (splitGo_no_match reMarkers expl []
               (countGo_without_dashes expl He)).
    reflexivity. }
  unfold patchOf, explanationOf; rewrite Hs; split; reflexivity.
Qed.

(** X21 on an answer with a preamble, where the body has negative numbers
    and no fence. *)
Lemma splitter_on_requested_format_witness :
  patchOf (lit "Sure." ++ lit "---PATCH---" ++ Scenario.bodyA
           ++ lit "---EXPLANATION---" ++ lit "It plays.")
  = Scenario.bodyA
  /\ explanationOf (lit "Sure." ++ lit "---PATCH---" ++ Scenario.bodyA
                    ++ lit "---EXPLANATION---" ++ lit "It plays.")
     = lit "It plays.".
Proof.
  destruct (splitter_on_requested_format (lit "Sure.") Scenario.bodyA
              (lit "It plays.")) as [H1 H2]; try (vm_compute; reflexivity).
  split; [|exact H2].
  rewrite H1; vm_compute; reflexivity.
Defined.

(* ====================================================================== *)
(** ** The removal of the fences *)
(* ====================================================================== *)

(** A fence match begins with a backtick, or with a line feed and a
    backtick. *)
Lemma reFences_head (s : jsstring) (n : nat) :
  reFences s = Some n ->
  (exists t, s = 96%N :: t) \/ (exists t, s = LF :: 96%N :: t).
Proof.
  unfold reFences; cbn [firstLiteral].
  destruct (startsWith s (fence ++ lit "pd" ++ [LF])) eqn:A1.
  { intros _; apply startsWith_inv in A1 as [rest ->]; left.
    eexists; reflexivity. }
  destruct (startsWith s (fence ++ lit "pd")) eqn:A2.
  { intros _; apply startsWith_inv in A2 as [rest ->]; left.
    eexists; reflexivity. }
  destruct (startsWith s (LF :: fence)) eqn:A3.
  { intros _; apply startsWith_inv in A3 as [rest ->]; right.
    eexists; reflexivity. }
  destruct (startsWith s fence) eqn:A4; [|discriminate].
  intros _; apply startsWith_inv in A4 as [rest ->]; left.
  eexists; reflexivity.
Qed.

Lemma reFences_plain (c : char16) (s : jsstring) :
  c <> 96%N ->
  (forall t, s <> 96%N :: t) ->
  reFences (c :: s) = None.
Proof.
  intros Hc Hs.
  destruct (reFences (c :: s)) as [n|] eqn:Q; [|reflexivity].
  exfalso; apply reFences_head in Q as [[t E]|[t E]]; injection E; intros.
  - contradiction.
  - eapply Hs; eassumption.
Qed.

(** Nothing is removed from a text without backticks, when what follows
    it does not begin with a backtick. *)
Lemma removeGo_plain (body : jsstring) :
  Forall (fun c => c <> 96%N) body ->
  forall rest,
    (forall t, rest <> 96%N :: t) ->
    removeGo reFences 0 (body ++ rest) = body ++ removeGo reFences 0 rest.
Proof.
  induction body as [|c body IH]; intros Hall rest Hr; [reflexivity|].
  apply Forall_cons_iff in Hall as [Hc Hb].
  change ((c :: body) ++ rest) with (c :: (body ++ rest)).
  cbn [removeGo].
  rewrite (reFences_plain c (body ++ rest) Hc).
  - cbn [app]; f_equal; now apply IH.
  - destruct body as [|d body]; cbn [app]; [exact Hr|].
    apply Forall_cons_iff in Hb as [Hd _].
    intros t E; injection E; intros; contradiction.
Qed.

Lemma removeGo_skip (re : matcher) (x rest : jsstring) :
  removeGo re (List.length x) (x ++ rest) = removeGo re 0 rest.
Proof.
  induction x as [|c x IH]; [now destruct rest|exact IH].
Qed.

Lemma removeGo_match (x rest : jsstring) :
  x <> [] ->
  reFences (x ++ rest) = Some (List.length x) ->
  removeGo reFences 0 (x ++ rest) = removeGo reFences 0 rest.
Proof.
  intros Hne Hm; destruct x as [|c x]; [contradiction|].
  change ((c :: x) ++ rest) with (c :: (x ++ rest)) in *.
  cbn [removeGo]; rewrite Hm; cbn [List.length].
  apply removeGo_skip.
Qed.

(** X22: on a patch segment without backticks inside a fenced block, the
    removal of the fences gives the body when the opening fence is at the
    very beginning of the segment. When a line feed precedes the opening
    fence, as it does when the marker is on a line of its own, the line
    feed is removed with the fence and the language tag [pd] stays in
    front of the body. *)
Theorem fences_are_removed (body : jsstring) :
  Forall (fun c => c <> 96%N) body ->
  removeAll reFences (fence ++ lit "pd" ++ [LF] ++ body ++ [LF] ++ fence)
  = body
  /\ removeAll reFences
       ([LF] ++ fence ++ lit "pd" ++ [LF] ++ body ++ [LF] ++ fence)
     = lit "pd" ++ [LF] ++ body.
Proof.
  intros Hb.
  assert (Hclose : forall b,
             Forall (fun c => c <> 96%N) b ->
             removeGo reFences 0 (b ++ [LF] ++ fence) = b).
  { intros b Wb; rewrite (removeGo_plain b Wb); [|discriminate].
    change (removeGo reFences 0 ([LF] ++ fence)) with (@nil char16).
    apply app_nil_r. }
  unfold removeAll; split.
  - change (fence ++ lit "pd" ++ [LF] ++ body ++ [LF] ++ fence)
      with ((fence ++ lit "pd" ++ [LF]) ++ body ++ [LF] ++ fence).
    rewrite removeGo_match; [now apply Hclose|discriminate|reflexivity].
  - change ([LF] ++ fence ++ lit "pd" ++ [LF] ++ body ++ [LF] ++ fence)
      with ((LF :: fence) ++ (lit "pd" ++ [LF] ++ body) ++ [LF] ++ fence).
    rewrite removeGo_match; [|discriminate|reflexivity].
    apply Hclose.
    repeat (constructor; [discriminate|]); exact Hb.
Qed.

(** X22 on the body of scenario A. *)
Lemma fences_are_removed_witness :
  removeAll reFences
    (fence ++ lit "pd" ++ [LF] ++ Scenario.bodyA ++ [LF] ++ fence)
  = Scenario.bodyA
  /\ removeAll reFences
       ([LF] ++ fence ++ lit "pd" ++ [LF] ++ Scenario.bodyA ++ [LF] ++ fence)
     = lit "pd" ++ [LF] ++ Scenario.bodyA
  /\ trim (patchOf (Sample.fenced Scenario.bodyA))
     = lit "pd" ++ [LF] ++ Scenario.bodyA.
Proof.
  destruct (fences_are_removed Scenario.bodyA) as [H1 H2].
  - apply Forall_forall; intros c Hc Q; subst c.
    vm_compute in Hc.
    repeat (destruct Hc as [Hc|Hc]; [discriminate Hc|]); exact Hc.
  - split; [exact H1|split; [exact H2|]].
    vm_compute; reflexivity.
Defined.

(* ====================================================================== *)
(** ** The requests of a run *)
(* ====================================================================== *)

Lemma gen_requests_shape (w : World) (prompt : jsstring) :
  forall fuel sent fb rc out evs,
    generatePdPatch_fuel fuel w sent prompt fb rc = Some (out, evs) ->
    requests evs = []
    \/ exists later,
         requests evs = composeRequest prompt fb :: later
         /\ Forall
              (fun req =>
                 exists report,
                   someFalse report = true
                   /\ req = composeRequest prompt
                              (Some (repairFeedback report)))
              later.
Proof.
  induction fuel as [|fuel IH]; intros sent fb rc out evs H; [discriminate|].
  apply gen_inv in H
    as [K1 -> ->|K1 K2 -> ->|e Hk Hf -> ->|text Hk Hc Hr -> ->
       |text evs' Hk Hc Hr Hn ->].
  - now left.
  - now left.
  - right; exists []; split; [reflexivity|constructor].
  - right; exists []; split; [reflexivity|constructor].
  - right; exists (requests evs'); split.
    + now rewrite requests_app.
    + apply andb_prop in Hr as [_ Hs].
      destruct (IH _ _ _ _ _ Hn) as [E|[later [E F]]]; rewrite E.
      * constructor.
      * constructor; [|exact F].
        eexists; split; [exact Hs|reflexivity].
Qed.

(** X23: every request of a call carries the fixed system prompt first and
    the prompt of the caller, unchanged, second, for the same model and
    token limit; every request after the first one carries, as its third
    and last message, [Errors to fix: ] followed by the repair feedback of
    a report that has a false value. *)
Theorem requests_keep_the_prompt (w : World) (prompt : jsstring)
  (fuel sent : nat) (errorFeedback : option jsstring) (retryCount : nat)
  (i : nat) (req : ChatRequest) :
  nth_error
    (requests (logOf (generatePdPatch_fuel fuel w sent prompt errorFeedback
                        retryCount))) i = Some req ->
  firstn 2 (messages req)
  = [ {| role := system; content := systemPrompt |};
      {| role := user; content := prompt |} ]
  /\ model req = lit "gpt-4"
  /\ max_tokens req = 2000%Z
  /\ (1 <= i ->
      exists report,
        someFalse report = true
        /\ messages req
           = [ {| role := system; content := systemPrompt |};
               {| role := user; content := prompt |};
               {| role := user;
                  content := lit "Errors to fix: " ++ repairFeedback report |}
             ]).
Proof.
  intros Hi.
  destruct (generatePdPatch_fuel fuel w sent prompt errorFeedback retryCount)
    as [[out evs]|] eqn:E; [|destruct i; discriminate].
  cbn [logOf] in Hi.
  destruct (gen_requests_shape w prompt _ _ _ _ _ _ E) as [Q|[later [Q F]]];
    rewrite Q in Hi; [destruct i; discriminate|].
  destruct i as [|i]; cbn [nth_error] in Hi.
  - injection Hi as <-.
    repeat split; lia.
  - rewrite Forall_forall in F.
    destruct (F req (nth_error_In _ _ Hi)) as [report [Hs ->]].
    repeat split.
    intros _; exists report; split; [exact Hs|reflexivity].
Qed.

(** X23 on scenario B, for the third request. *)
Lemma requests_keep_the_prompt_witness :
  exists req,
    nth_error
      (requests (logOf (generatePdPatch_fuel 3 Scenario.worldB 0
                          Scenario.tonePrompt None 0))) 2 = Some req
    /\ firstn 2 (messages req)
       = [ {| role := system; content := systemPrompt |};
           {| role := user; content := Scenario.tonePrompt |} ]
    /\ List.length (messages req) = 3.
Proof.
  exists (composeRequest Scenario.tonePrompt
            (Some (repairFeedback
                     (validation (patchOf (Scenario.completion
                                             Scenario.bodyB)))))).
  assert (Hi : nth_error
                 (requests (logOf (generatePdPatch_fuel 3 Scenario.worldB 0
                                     Scenario.tonePrompt None 0))) 2
               = Some (composeRequest Scenario.tonePrompt
                         (Some (repairFeedback
                                  (validation
                                     (patchOf (Scenario.completion
                                                 Scenario.bodyB)))))))
    by (vm_compute; reflexivity).
  split; [exact Hi|].
  destruct (requests_keep_the_prompt _ _ _ _ _ _ _ _ Hi)
    as (H1 & _ & _ & H4).
  split; [exact H1|].
  destruct (H4 ltac:(lia)) as [report [_ Hm]].
  now rewrite Hm.
Defined.

(* ====================================================================== *)
(** ** [handleRegenerate]: refusals and failures *)
(* ====================================================================== *)

(** X24: without a current patch [handleRegenerate] does nothing, whatever
    the fuel is. When the regeneration throws, whatever the error is, the
    handler shows [Failed to regenerate patch] and does not open the
    settings; the history, its stored copy and the current patch stay as
    they are, and the error text of the user has been cleared from the
    state. *)
Theorem handleRegenerate_on_failure (fuel : nat) (w : World) (t1 t2 : Z)
  (errorMessage : jsstring) (st : App.State) (current : App.PdPatch)
  (e : JsError) (evs : list Event) :
  (App.currentPatch st = None ->
   App.handleRegenerate fuel w t1 t2 errorMessage st = Some st)
  /\ (App.currentPatch st = Some current ->
      generatePdPatch_fuel fuel w (App.sent st) (App.description current)
        (Some errorMessage) 0 = Some (Threw e, evs) ->
      exists st',
        App.handleRegenerate fuel w t1 t2 errorMessage st = Some st'
        /\ App.toasts st'
           = App.toasts st
             ++ [App.toast_error (lit "Failed to regenerate patch")]
        /\ App.showApiSettings st' = App.showApiSettings st
        /\ App.history st' = App.history st
        /\ App.pdPatchHistory st' = App.pdPatchHistory st
        /\ App.currentPatch st' = Some current
        /\ App.pdErrors st' = []
        /\ App.isRegenerating st' = false
        /\ App.sent st' = App.sent st + List.length (requests evs)).
Proof.
  split.
  - intros Hn; unfold App.handleRegenerate; now rewrite Hn.
  - intros Hc Hg; eexists; split.
    + unfold App.handleRegenerate; rewrite Hc.
      change (App.sent (App.setPdErrors [] (App.setIsRegenerating true st)))
        with (App.sent st).
      rewrite Hg; reflexivity.
    + repeat split; exact Hc.
Qed.

(** X24 on scenario D with a service that rejects the key. *)
Lemma handleRegenerate_on_failure_witness :
  exists st',
    App.handleRegenerate 3 Scenario.world401 2000 2001
      (lit "dac~ not connected") Scenario.browsing = Some st'
    /\ App.toasts st' = [App.toast_error (lit "Failed to regenerate patch")]
    /\ App.showApiSettings st' = false
    /\ App.pdErrors st' = [].
Proof.
  destruct (handleRegenerate_on_failure 3 Scenario.world401 2000 2001
              (lit "dac~ not connected") Scenario.browsing Scenario.selected
              (Error
    "Invalid API key. Please check your OpenAI API key in settings")
              (logOf (generatePdPatch_fuel 3 Scenario.world401 3
                        Scenario.tonePrompt
                        (Some (lit "dac~ not connected")) 0)))
    as [_ H].
  destruct H as [st' (E & Ht & Hs & _ & _ & _ & Hp & _)].
  - reflexivity.
  - vm_compute; reflexivity.
  - exists st'; repeat split; assumption.
Defined.
